(** * FinBot: the message resolver of [src/App.tsx]

    A shallow embedding of the chat widget's decision core:
    [parseCommand], [getStockData], [getHistoricalData],
    [formatStockResponse], [getBotResponse] and [handleSubmit], together
    with the part of the JavaScript runtime they lean on (string methods,
    [parseFloat], [Number.prototype.toFixed], property lookup).

    Conventions of the embedding.
    - A JavaScript string is a [string]: the sequence of bytes of its UTF-8
      encoding.  Case mapping and white space are those of ASCII, so the
      embedding is exact on ASCII input; the non-ASCII bytes of the
      source's own literals are kept as they are in the file.
    - A JavaScript number is a binary64 value, a [spec_float] of the
      standard library with [prec = 53] and [emax = 1024].
    - The network is a function from the requested URL to the outcome of
      [fetch] followed by [response.json()]; every request is logged. *)

From Stdlib Require Import Bool List ZArith Lia Ascii String.
From Stdlib Require Import DecimalString DecimalN.
From Stdlib Require Import SpecFloat.
Import ListNotations.
Open Scope string_scope.
Set Warnings "-register-all".

(** ** String methods *)

Module JsString.

Definition nl : string := String (ascii_of_nat 10) "".

Definition is_upper (c : ascii) : bool :=
  let n := nat_of_ascii c in (65 <=? n)%nat && (n <=? 90)%nat.

Definition is_lower (c : ascii) : bool :=
  let n := nat_of_ascii c in (97 <=? n)%nat && (n <=? 122)%nat.

Definition lower_char (c : ascii) : ascii :=
  if is_upper c then ascii_of_nat (nat_of_ascii c + 32) else c.

Definition upper_char (c : ascii) : ascii :=
  if is_lower c then ascii_of_nat (nat_of_ascii c - 32) else c.

Fixpoint map_chars (f : ascii -> ascii) (s : string) : string :=
  match s with
  | EmptyString => EmptyString
  | String c s' => String (f c) (map_chars f s')
  end.

(** A string of ASCII characters: every byte is below 128.  On such a
    string the methods below are those of JavaScript; on other strings
    they leave every byte from 128 on as it is, where JavaScript also maps
    letters and strips spaces outside ASCII. *)
Definition is_ascii (c : ascii) : bool := (nat_of_ascii c <? 128)%nat.

Fixpoint ascii_only (s : string) : bool :=
  match s with
  | EmptyString => true
  | String c s' => is_ascii c && ascii_only s'
  end.

(** [String.prototype.toLowerCase] and [toUpperCase], on the letters of
    ASCII. *)
Definition toLowerCase : string -> string := map_chars lower_char.
Definition toUpperCase : string -> string := map_chars upper_char.

(** White space as [trim] sees it in ASCII: TAB, LF, VT, FF, CR and
    SPACE. *)
Definition is_white (c : ascii) : bool :=
  let n := nat_of_ascii c in ((9 <=? n)%nat && (n <=? 13)%nat) || (n =? 32)%nat.

Fixpoint trimStart (s : string) : string :=
  match s with
  | EmptyString => EmptyString
  | String c s' => if is_white c then trimStart s' else s
  end.

Fixpoint trimEnd (s : string) : string :=
  match s with
  | EmptyString => EmptyString
  | String c s' =>
      match trimEnd s' with
      | EmptyString => if is_white c then EmptyString else String c EmptyString
      | t => String c t
      end
  end.

(** [String.prototype.trim]. *)
Definition trim (s : string) : string := trimEnd (trimStart s).

(** [s.split(sep)] for a separator of one character: the pieces between
    the occurrences of [sep]; never the empty array. *)
Fixpoint split (sep : ascii) (s : string) : list string :=
  match s with
  | EmptyString => [EmptyString]
  | String c s' =>
      if Ascii.eqb c sep then EmptyString :: split sep s'
      else match split sep s' with
           | [] => [String c EmptyString]
           | p :: ps => String c p :: ps
           end
  end.

(** [parts.join(sep)]. *)
Definition join (sep : string) (parts : list string) : string :=
  String.concat sep parts.

(** [s.startsWith(p)]. *)
Definition startsWith (s p : string) : bool := String.prefix p s.

(** [s.includes(key)]: [key] occurs somewhere in [s]. *)
Fixpoint includes (s key : string) : bool :=
  String.prefix key s ||
  match s with
  | EmptyString => false
  | String _ s' => includes s' key
  end.

Fixpoint drop (n : nat) (s : string) : string :=
  match n, s with
  | O, _ => s
  | S _, EmptyString => EmptyString
  | S n', String _ s' => drop n' s'
  end.

(** [s.replace(pat, rep)] for a string pattern: the first occurrence only. *)
Fixpoint replace (pat rep s : string) : string :=
  if String.prefix pat s then rep ++ drop (String.length pat) s
  else match s with
       | EmptyString => EmptyString
       | String c s' => String c (replace pat rep s')
       end.

(** [s.substring(0, n)]. *)
Definition substring0 (n : nat) (s : string) : string := String.substring 0 n s.

(** A string is truthy when it is not empty. *)
Definition truthy (s : string) : bool :=
  match s with EmptyString => false | _ => true end.

End JsString.
Import JsString.

(** ** The knowledge table *)

(** [predefinedResponses], in declaration order. *)
Definition hello_text : string :=
  "Hello! I'm your financial assistant. I can help you with:" ++ nl ++
  "- Stock prices (try 'stock AAPL')" ++ nl ++
  "- Investment basics" ++ nl ++
  "- Market terms" ++ nl ++
  "- Financial advice" ++ nl ++
  "What would you like to know?".

Definition help_text : string :=
  "Here are commands you can try:" ++ nl ++
  "- 'stock SYMBOL' (e.g., try these symbols:" ++ nl ++
  "  â€¢ AAPL (Apple)" ++ nl ++
  "  â€¢ MSFT (Microsoft)" ++ nl ++
  "  â€¢ GOOGL (Google)" ++ nl ++
  "  â€¢ AMZN (Amazon)" ++ nl ++
  "  â€¢ TSLA (Tesla)" ++ nl ++
  "  â€¢ META (Meta/Facebook)" ++ nl ++
  "  â€¢ NFLX (Netflix))" ++ nl ++
  "- 'explain investing'" ++ nl ++
  "- 'what is a stock'" ++ nl ++
  "- 'investment tips'" ++ nl ++
  "- 'market basics'".

Definition stock_text : string :=
  "A stock represents ownership in a company. When you buy a stock, you're buying a small piece of that company. The stock price can go up or down based on the company's performance and market conditions.".

Definition tips_text : string :=
  "Here are some basic investment tips:" ++ nl ++
  "1. Diversify your portfolio" ++ nl ++
  "2. Invest for the long term" ++ nl ++
  "3. Start early" ++ nl ++
  "4. Research before investing" ++ nl ++
  "5. Don't invest money you can't afford to lose".

Definition market_text : string :=
  "The stock market is where shares of public companies are bought and sold. Key things to know:" ++ nl ++
  "- Stock exchanges (NYSE, NASDAQ)" ++ nl ++
  "- Market hours (9:30 AM - 4:00 PM EST)" ++ nl ++
  "- Types of orders (market, limit)" ++ nl ++
  "- Basic terms (bull/bear market)".

Definition investing_text : string :=
  "Investing is putting money into assets hoping to grow wealth over time. Common investment types:" ++ nl ++
  "1. Stocks" ++ nl ++
  "2. Bonds" ++ nl ++
  "3. Mutual Funds" ++ nl ++
  "4. ETFs" ++ nl ++
  "5. Real Estate".

Definition default_text : string :=
  "I'm not sure about that. Try asking about stocks, investing basics, or type 'help' for available commands.".

Definition predefinedResponses : list (string * string) :=
  [ ("hello", hello_text);
    ("help", help_text);
    ("what is a stock", stock_text);
    ("investment tips", tips_text);
    ("market basics", market_text);
    ("explain investing", investing_text);
    ("default", default_text) ].


(** ** Numbers: [parseFloat] and [toFixed] *)

Module JsNumber.

(** A Number value: binary64. *)
Definition number : Type := spec_float.

Definition prec : Z := 53.
Definition emax : Z := 1024.

Definition NaN : number := S754_nan.

Definition is_digit (c : ascii) : bool :=
  let n := nat_of_ascii c in (48 <=? n)%nat && (n <=? 57)%nat.

(** The longest prefix of decimal digits, and what follows it. *)
Fixpoint span_digits (s : string) : string * string :=
  match s with
  | EmptyString => (EmptyString, EmptyString)
  | String c s' =>
      if is_digit c
      then let (ds, rest) := span_digits s' in (String c ds, rest)
      else (EmptyString, s)
  end.

(** The natural number that a string of decimal digits denotes. *)
Definition digits_value (ds : string) : N :=
  match NilEmpty.uint_of_string ds with
  | Some d => N.of_uint d
  | None => 0%N
  end.

(** The decimal digits of a natural number, without leading zeros. *)
Definition decimal_digits (n : N) : string :=
  NilEmpty.string_of_uint (N.to_uint n).

(** The Number value of [d * 10 ^ e10], with the sign [neg]: the nearest
    binary64, ties to even.  A non-negative power of ten is multiplied in
    and the integer rounded; a negative one divides, and the quotient is
    rounded from its truncation and the position of the remainder. *)
Definition round_decimal (neg : bool) (d : N) (e10 : Z) : number :=
  match d with
  | N0 => S754_zero neg
  | Npos p =>
      if (0 <=? e10)%Z
      then binary_round prec emax neg (p * Z.to_pos (10 ^ e10)) 0
      else
        let '(q, e', l) :=
          SFdiv_core_binary prec emax (Zpos p) 0 (10 ^ (- e10)) 0 in
        binary_round_aux prec emax neg q e' l
  end.

(** An [ExponentPart] at the head of [s] gives its value; anything else
    leaves the exponent at zero (the literal ends before it). *)
Definition exponent_part (s : string) : Z :=
  match s with
  | String c s' =>
      if (Ascii.eqb c "e" || Ascii.eqb c "E")%bool then
        let '(neg, s'') :=
          match s' with
          | String "+" r => (false, r)
          | String "-" r => (true, r)
          | _ => (false, s')
          end in
        match fst (span_digits s'') with
        | EmptyString => 0%Z
        | ds => if neg then (- Z.of_N (digits_value ds))%Z
                else Z.of_N (digits_value ds)
        end
      else 0%Z
  | EmptyString => 0%Z
  end.

(** The longest prefix that is a [StrUnsignedDecimalLiteral], as a Number;
    [NaN] when there is none. *)
Definition unsigned_literal (neg : bool) (s : string) : number :=
  if String.prefix "Infinity" s then S754_infinity neg
  else
    let (ip, r1) := span_digits s in
    match r1 with
    | String "." r2 =>
        let (fp, r3) := span_digits r2 in
        match ip ++ fp with
        | EmptyString => NaN
        | ds => round_decimal neg (digits_value ds)
                  (exponent_part r3 - Z.of_nat (String.length fp))
        end
    | _ =>
        match ip with
        | EmptyString => NaN
        | ds => round_decimal neg (digits_value ds) (exponent_part r1)
        end
    end.

(** [parseFloat] of a string: leading white space is skipped, an optional
    sign is read, and the longest literal that follows is the value. *)
Definition parseFloat_string (s : string) : number :=
  match trimStart s with
  | String "+" r => unsigned_literal false r
  | String "-" r => unsigned_literal true r
  | t => unsigned_literal false t
  end.

(** [x >= 0]. *)
Definition ge_zero (x : number) : bool :=
  match SFcompare x (S754_zero false) with
  | Some Gt | Some Eq => true
  | _ => false
  end.

(** [m * 2 ^ e] rounded to an integer, a half going up. *)
Definition scale_half_up (m e : Z) : Z :=
  if (0 <=? e)%Z then m * 2 ^ e
  else (2 * m + 2 ^ (- e)) / 2 ^ (1 - e).

(** [b <= m * 2 ^ e], for a positive integer [b]. *)
Definition at_least (b m e : Z) : bool :=
  if (0 <=? e)%Z then (b <=? m * 2 ^ e)%Z else (b * 2 ^ (- e) <=? m)%Z.

Fixpoint zeros (k : nat) : string :=
  match k with O => EmptyString | S k' => String "0" (zeros k') end.

(** The digits of [n] with a decimal point before the last [f] of them,
    zeros added in front until one digit stands before the point. *)
Definition fixed_digits (f : nat) (n : N) : string :=
  let m := decimal_digits n in
  let m := zeros (S f - String.length m) ++ m in
  match f with
  | O => m
  | _ => let k := String.length m in
         String.substring 0 (k - f) m ++ "." ++ String.substring (k - f) f m
  end.

Fixpoint strip_zeros_end (s : string) : string :=
  match s with
  | EmptyString => EmptyString
  | String c s' =>
      match strip_zeros_end s' with
      | EmptyString => if Ascii.eqb c "0" then EmptyString else String c EmptyString
      | t => String c t
      end
  end.

(** [s * p] is read as the Number that the integer [x] is read as. *)
Definition reads_back (x : positive) (p s : Z) : bool :=
  (1 <=? s)%Z &&
  match binary_round prec emax false x 0,
        binary_round prec emax false (Z.to_pos (s * p)) 0 with
  | S754_finite _ m1 e1, S754_finite _ m2 e2 =>
      (Pos.eqb m1 m2 && Z.eqb e1 e2)%bool
  | _, _ => false
  end.

(** Of [s0] and its successor, the one that reads back; the nearer to [x]
    when both do, the even one when they are as near. *)
Definition pick_digits (x : positive) (p s0 : Z) : option Z :=
  let lo := reads_back x p s0 in
  let hi := reads_back x p (s0 + 1) in
  if (lo && hi)%bool then
    match (Zpos x - s0 * p ?= (s0 + 1) * p - Zpos x)%Z with
    | Lt => Some s0
    | Gt => Some (s0 + 1)%Z
    | Eq => Some (if Z.even s0 then s0 else s0 + 1)%Z
    end
  else if lo then Some s0
  else if hi then Some (s0 + 1)%Z
  else None.

(** The digits [s] and the power of ten [t] they are scaled by, trying
    [k] digits, then [k + 1], up to all [nd] digits of [x]. *)
Fixpoint shortest_digits (fuel : nat) (x : positive) (nd k : nat) : N * nat :=
  let t := (nd - k)%nat in
  let p := (10 ^ Z.of_nat t)%Z in
  match pick_digits x p (Zpos x / p), fuel with
  | Some s, _ => (Z.to_N s, t)
  | None, S fuel' => shortest_digits fuel' x nd (S k)
  | None, O => (Npos x, O)
  end.

(** [Number::toString] of a finite value of at least [10 ^ 21], given as
    the integer [x] it is: the shortest digit string [s] for which
    [s * 10 ^ (n - k)] reads back as the same Number, the nearest such
    when there are two, in exponent notation. *)
Definition toString_large (x : positive) : string :=
  let nd := String.length (decimal_digits (Npos x)) in
  let '(s, t) := shortest_digits nd x nd 1 in
  let ds := decimal_digits s in
  let n := (String.length ds + t)%nat in
  let expo := "e+" ++ decimal_digits (N.of_nat (n - 1)) in
  match strip_zeros_end ds with
  | String c EmptyString => String c expo
  | String c rest => String c ("." ++ rest ++ expo)
  | EmptyString => "0"
  end.

(** [x.toFixed(f)]. *)
Definition toFixed (f : nat) (x : number) : string :=
  match x with
  | S754_nan => "NaN"
  | S754_infinity s => if s then "-Infinity" else "Infinity"
  | S754_zero _ => fixed_digits f 0
  | S754_finite s m e =>
      (if s then "-" else "") ++
      (if at_least (10 ^ 21) (Zpos m) e
       then toString_large (Z.to_pos (Zpos m * 2 ^ e))
       else fixed_digits f
              (Z.to_N (scale_half_up (Zpos m * 10 ^ Z.of_nat f) e)))
  end.

End JsNumber.
Import JsNumber.

(** ** Values the program handles *)

(** The outcome of evaluating JavaScript that may throw. *)
Inductive outcome (A : Type) : Type :=
  | Returned (a : A)
  | Thrown.
Arguments Returned {A} a.
Arguments Thrown {A}.

Definition obind {A B : Type} (m : outcome A) (k : A -> outcome B) : outcome B :=
  match m with
  | Returned a => k a
  | Thrown => Thrown
  end.

Fixpoint omap {A B : Type} (f : A -> outcome B) (l : list A) : outcome (list B) :=
  match l with
  | [] => Returned []
  | a :: l' =>
      obind (f a) (fun b => obind (omap f l') (fun bs => Returned (b :: bs)))
  end.

(** What [response.json()] yields.  The quote service answers with objects
    and strings only; numbers and arrays in a document are outside the
    embedding.  [JObj] lists the own properties in the order [Object.keys]
    and [Object.entries] enumerate them, each name once: for names that are
    not array indices that is the order of the document. *)
Inductive json : Type :=
  | JNull
  | JBool (b : bool)
  | JStr (s : string)
  | JObj (props : list (string * json)).

(** The first binding of a key in an association list. *)
Fixpoint assoc {A : Type} (key : string) (l : list (string * A)) : option A :=
  match l with
  | [] => None
  | (k, v) :: l' => if String.eqb key k then Some v else assoc key l'
  end.

(** [v[key]] for the property names the program reads from a response
    (none of them an index, [length] or the name of a built-in member);
    [None] is [undefined], and reading from [undefined] or [null] throws. *)
Definition get (v : option json) (key : string) : outcome (option json) :=
  match v with
  | None | Some JNull => Thrown
  | Some (JObj props) => Returned (assoc key props)
  | Some (JBool _) | Some (JStr _) => Returned None
  end.

(** Truthiness of a value. *)
Definition truthy_json (v : option json) : bool :=
  match v with
  | None | Some JNull => false
  | Some (JBool b) => b
  | Some (JStr s) => truthy s
  | Some (JObj _) => true
  end.

Definition decimal_of_nat (n : nat) : string := decimal_digits (N.of_nat n).

Fixpoint string_entries (i : nat) (s : string) : list (string * json) :=
  match s with
  | EmptyString => []
  | String c s' =>
      (decimal_of_nat i, JStr (String c EmptyString)) :: string_entries (S i) s'
  end.

(** [Object.entries(v)] of a truthy value: the properties of an object, the
    indexed characters of a string, nothing for [true]. *)
Definition entries (v : json) : list (string * json) :=
  match v with
  | JObj props => props
  | JStr s => string_entries 0 s
  | JBool _ | JNull => []
  end.

(** [ToString]: an object prints as [[object Object]] through the
    inherited [toString]; an own property of that name hides it, is not
    callable, and the conversion throws. *)
Definition ToString (v : option json) : outcome string :=
  match v with
  | None => Returned "undefined"
  | Some JNull => Returned "null"
  | Some (JBool true) => Returned "true"
  | Some (JBool false) => Returned "false"
  | Some (JStr s) => Returned s
  | Some (JObj props) =>
      match assoc "toString" props with
      | Some _ => Thrown
      | None => Returned "[object Object]"
      end
  end.

(** [parseFloat(v)]. *)
Definition parseFloat (v : option json) : outcome number :=
  obind (ToString v) (fun s => Returned (parseFloat_string s)).

(** What a lookup in [predefinedResponses] can give: an answer of the
    table, or a member inherited from [Object.prototype]. *)
Inductive value : Type :=
  | VString (s : string)
  | VInherited (name : string).

Definition object_prototype_members : list string :=
  [ "constructor"; "hasOwnProperty"; "isPrototypeOf"; "propertyIsEnumerable";
    "toLocaleString"; "toString"; "valueOf"; "__defineGetter__";
    "__defineSetter__"; "__lookupGetter__"; "__lookupSetter__"; "__proto__" ].

(** [predefinedResponses[key]]. *)
Definition lookup (key : string) : option value :=
  match assoc key predefinedResponses with
  | Some s => Some (VString s)
  | None =>
      if existsb (String.eqb key) object_prototype_members
      then Some (VInherited key)
      else None
  end.

Definition truthy_value (v : value) : bool :=
  match v with
  | VString s => truthy s
  | VInherited _ => true
  end.

(** [predefinedResponses[key]] when it is truthy. *)
Definition truthy_lookup (key : string) : option value :=
  match lookup key with
  | Some v => if truthy_value v then Some v else None
  | None => None
  end.

(** A value inside a template literal.  The text of a built-in function is
    the engine's; it is written here as V8 prints it. *)
Definition value_to_string (v : value) : string :=
  match v with
  | VString s => s
  | VInherited name =>
      if String.eqb name "__proto__" then "[object Object]"
      else "function " ++
           (if String.eqb name "constructor" then "Object" else name) ++
           "() { [native code] }"
  end.

Record Point : Type := { date : string; price : number }.

Record ChartData : Type :=
  { symbol : string;
    series : option (list Point)  (* the field [data] *) }.

(** What [getBotResponse] resolves to. *)
Record BotResponse : Type :=
  { text : value;
    chartData : option ChartData }.

Record Message : Type :=
  { message_text : value;
    isBot : bool;
    message_chartData : option ChartData }.

(** The objects [{ error: ... }] and [{ data: ... }] of the two fetchers. *)
Record reply (A : Type) : Type :=
  { error : option string;
    data : option A }.
Arguments error {A} r.
Arguments data {A} r.

Definition failed {A : Type} (msg : string) : reply A :=
  {| error := Some msg; data := None |}.

Definition succeeded {A : Type} (d : option A) : reply A :=
  {| error := None; data := d |}.

(** [r.error] when it is truthy. *)
Definition truthy_error {A : Type} (r : reply A) : option string :=
  match error r with
  | Some msg => if truthy msg then Some msg else None
  | None => None
  end.

(** ** The network and asynchronous code *)

Inductive fetched : Type :=
  | NetworkError              (* [fetch] rejects *)
  | InvalidJson               (* [response.json()] rejects *)
  | Json (document : json).

Definition network : Type := string -> fetched.

(** An asynchronous computation reads the network, appends the URLs it
    requests to the log, and returns or throws. *)
Definition Async (A : Type) : Type :=
  network -> list string -> outcome A * list string.

Definition ret {A : Type} (a : A) : Async A :=
  fun _ log => (Returned a, log).

Definition bind {A B : Type} (m : Async A) (k : A -> Async B) : Async B :=
  fun net log =>
    match m net log with
    | (Returned a, log') => k a net log'
    | (Thrown, log') => (Thrown, log')
    end.

Definition lift {A : Type} (o : outcome A) : Async A :=
  fun _ log => (o, log).

Definition try_catch {A : Type} (body handler : Async A) : Async A :=
  fun net log =>
    match body net log with
    | (Thrown, log') => handler net log'
    | r => r
    end.

(** [await fetch(url)] followed by [await response.json()]. *)
Definition fetch_json (url : string) : Async json :=
  fun net log =>
    (match net url with
     | Json document => Returned document
     | NetworkError | InvalidJson => Thrown
     end, (log ++ [url])%list).

Declare Scope async_scope.
Delimit Scope async_scope with async.
Notation "x <- m ;; k" := (bind m (fun x => k))
  (at level 61, m at next level, right associativity) : async_scope.
Notation "'let!' x := o 'in' k" := (obind o (fun x => k))
  (at level 61, x name, o at next level, right associativity).

(** ** The program *)

Open Scope async_scope.

Definition ALPHA_VANTAGE_API_KEY : string := "GV7X6LMWS10833IN".

Record ParsedCommand : Type := { command : string; args : string }.

(** [parseCommand].  [split] never yields the empty array, so [parts[0]]
    is always a string; [hd] is given the empty string for a default that
    is never used. *)
Definition parseCommand (message : string) : ParsedCommand :=
  let parts := split " " (trim (toLowerCase message)) in
  {| command := hd "" parts;
     args := join " " (tl parts) |}.

Definition rate_limit_text : string :=
  "API rate limit reached. Please try again in a minute.".

Definition history_url (symbol : string) : string :=
  "https://www.alphavantage.co/query?function=TIME_SERIES_MONTHLY&symbol="
  ++ symbol ++ "&apikey=" ++ ALPHA_VANTAGE_API_KEY.

Definition quote_url (symbol : string) : string :=
  "https://www.alphavantage.co/query?function=GLOBAL_QUOTE&symbol="
  ++ symbol ++ "&apikey=" ++ ALPHA_VANTAGE_API_KEY.

Arguments history_url : simpl never.
Arguments quote_url : simpl never.

(** [Object.entries(v)] and the length of [Object.keys(v)]: both throw on
    [undefined] and [null]. *)
Definition object_entries (v : option json) : outcome (list (string * json)) :=
  match v with
  | None | Some JNull => Thrown
  | Some j => Returned (entries j)
  end.

Definition keys_length (v : option json) : outcome nat :=
  let! es := object_entries v in Returned (List.length es).

(** The callback of [map] in [getHistoricalData]. *)
Definition history_point (entry : string * json) : outcome Point :=
  let '(d, values) := entry in
  let! close := get (Some values) "4. close" in
  let! p := parseFloat close in
  Returned {| date := substring0 7 d; price := p |}.

Definition getHistoricalData (symbol : string) : Async (reply (list Point)) :=
  try_catch
    (document <- fetch_json (history_url symbol);;
     note <- lift (get (Some document) "Note");;
     if truthy_json note then ret (failed rate_limit_text)
     else
       monthly <- lift (get (Some document) "Monthly Time Series");;
       if negb (truthy_json monthly) then ret (failed "No historical data found")
       else
         es <- lift (object_entries monthly);;
         chart <- lift (omap history_point (rev (firstn 12 es)));;
         ret (succeeded (Some chart)))
    (ret (failed "Failed to fetch historical data")).

Definition getStockData (symbol : string) : Async (reply json) :=
  try_catch
    (document <- fetch_json (quote_url symbol);;
     note <- lift (get (Some document) "Note");;
     if truthy_json note then ret (failed rate_limit_text)
     else
       quote <- lift (get (Some document) "Global Quote");;
       missing <- (if negb (truthy_json quote) then ret true
                   else n <- lift (keys_length quote);; ret (n =? 0)%nat);;
       if missing : bool
       then ret (failed ("Could not find stock data for symbol: " ++ symbol))
       else ret (succeeded quote))
    (ret (failed "Failed to fetch stock data. Please try again.")).

(** The two glyphs, byte for byte as the source file holds them. *)
Definition glyph_up : string := "ðŸ“ˆ".
Definition glyph_down : string := "ðŸ“‰".

Definition formatStockResponse (stockData : option json) (symbol : string)
  : outcome string :=
  let! p := get stockData "05. price" in
  let! pn := parseFloat p in
  let price := toFixed 2 pn in
  let! c := get stockData "09. change" in
  let! cn := parseFloat c in
  let change := toFixed 2 cn in
  let! changePercent := get stockData "10. change percent" in
  let direction :=
    if ge_zero (parseFloat_string change) then glyph_up else glyph_down in
  let! percent := ToString changePercent in
  let! h := get stockData "03. high" in
  let! hn := parseFloat h in
  let! l := get stockData "04. low" in
  let! ln := parseFloat l in
  Returned
    (direction ++ " " ++ toUpperCase symbol ++ " Stock Info:" ++ nl ++
     "Price: $" ++ price ++ nl ++
     "Change: $" ++ change ++ " (" ++ percent ++ ")" ++ nl ++
     "Today's High: $" ++ toFixed 2 hn ++ nl ++
     "Today's Low: $" ++ toFixed 2 ln).

(** The return statement of [getBotResponse] that produced a response. *)
Inductive branch : Type :=
  | StockBranch | ExactBranch | PartialBranch | TermBranch | DefaultBranch.

Definition plain (s : string) : BotResponse :=
  {| text := VString s; chartData := None |}.

(** [getBotResponse], each response tagged with the branch it left by. *)
Definition getBotResponse_traced (userMessage : string)
  : Async (branch * BotResponse) :=
  let parsed := parseCommand userMessage in
  let lowerMessage := toLowerCase userMessage in
  if (String.eqb (command parsed) "stock" && truthy (args parsed))%bool then
    let symbol := hd "" (split " " (args parsed)) in
    quoteResult <- getStockData symbol;;
    historyResult <- getHistoricalData symbol;;
    match truthy_error quoteResult with
    | Some msg => ret (StockBranch, plain msg)
    | None =>
        response <- lift (formatStockResponse (data quoteResult) symbol);;
        match truthy_error historyResult with
        | None =>
            ret (StockBranch,
                 {| text := VString response;
                    chartData := Some {| symbol := toUpperCase symbol;
                                         series := data historyResult |} |})
        | Some _ => ret (StockBranch, plain response)
        end
    end
  else
    match truthy_lookup lowerMessage with
    | Some v => ret (ExactBranch, {| text := v; chartData := None |})
    | None =>
        match find (fun kv => includes lowerMessage (fst kv))
                   predefinedResponses with
        | Some (_, response) => ret (PartialBranch, plain response)
        | None =>
            let term :=
              trim (replace "explain" "" (replace "what is" "" lowerMessage)) in
            if ((startsWith lowerMessage "what is"
                 || startsWith lowerMessage "explain") && truthy term)%bool
            then
              let answer :=
                match truthy_lookup term with
                | Some v => v
                | None => VString default_text  (* predefinedResponses.default *)
                end in
              ret (TermBranch,
                   plain ("I'll explain " ++ term ++ ". " ++
                          value_to_string answer))
            else ret (DefaultBranch, plain default_text)
        end
    end.

Definition getBotResponse (userMessage : string) : Async BotResponse :=
  r <- getBotResponse_traced userMessage;; ret (snd r).

Record AppState : Type :=
  { messages : list Message;
    input : string;
    isLoading : bool }.

Definition catch_all_text : string :=
  "I'm sorry, I encountered an error. Please try again later.".

(** [handleSubmit], from the submission to the end of its [finally]. *)
Definition handleSubmit (st : AppState) (net : network) (log : list string)
  : AppState * list string :=
  if (negb (truthy (trim (input st))) || isLoading st)%bool then (st, log)
  else
    let userMessage := trim (input st) in
    let shown :=
      (messages st ++
       [{| message_text := VString userMessage; isBot := false;
           message_chartData := None |}])%list in
    match getBotResponse userMessage net log with
    | (Returned botResponse, log') =>
        ({| messages :=
              (shown ++ [{| message_text := text botResponse; isBot := true;
                            message_chartData := chartData botResponse |}])%list;
            input := "";
            isLoading := false |}, log')
    | (Thrown, log') =>
        ({| messages :=
              (shown ++ [{| message_text := VString catch_all_text;
                            isBot := true;
                            message_chartData := None |}])%list;
            input := "";
            isLoading := false |}, log')
    end.

(** ** Predicates used in the statements *)

Fixpoint all_white (s : string) : bool :=
  match s with
  | EmptyString => true
  | String c s' => is_white c && all_white s'
  end.

(** The string is not empty and begins with a character that is not white
    space. *)
Definition head_black (s : string) : bool :=
  match s with
  | EmptyString => false
  | String c _ => negb (is_white c)
  end.

(** The string is not empty and ends with a character that is not white
    space. *)
Fixpoint last_black (s : string) : bool :=
  match s with
  | EmptyString => false
  | String c EmptyString => negb (is_white c)
  | String _ s' => last_black s'
  end.

(** The character occurs in the string. *)
Fixpoint has_char (c : ascii) (s : string) : bool :=
  match s with
  | EmptyString => false
  | String d s' => Ascii.eqb d c || has_char c s'
  end.

(** What the two fetchers answer, apart from the log. *)
Definition quote_result (symbol : string) (net : network) : outcome (reply json) :=
  fst (getStockData symbol net []).

Definition history_result (symbol : string) (net : network)
  : outcome (reply (list Point)) :=
  fst (getHistoricalData symbol net []).

(** A message that takes the stock branch, and the symbol it asks for. *)
Definition stock_command (userMessage : string) : bool :=
  String.eqb (command (parseCommand userMessage)) "stock"
  && truthy (args (parseCommand userMessage)).

Definition symbol_of (userMessage : string) : string :=
  hd "" (split " " (args (parseCommand userMessage))).

(** The ways the history fetch can fail. *)
Inductive history_failure : fetched -> Prop :=
  | failure_network : history_failure NetworkError
  | failure_json : history_failure InvalidJson
  | failure_read (document : json) :
      get (Some document) "Note" = Thrown ->
      history_failure (Json document)
  | failure_rate_limit (document : json) (note : option json) :
      get (Some document) "Note" = Returned note ->
      truthy_json note = true ->
      history_failure (Json document)
  | failure_no_data (document : json) (note monthly : option json) :
      get (Some document) "Note" = Returned note ->
      truthy_json note = false ->
      get (Some document) "Monthly Time Series" = Returned monthly ->
      truthy_json monthly = false ->
      history_failure (Json document)
  | failure_entry (document : json) (note monthly : option json)
                  (es : list (string * json)) :
      get (Some document) "Note" = Returned note ->
      truthy_json note = false ->
      get (Some document) "Monthly Time Series" = Returned monthly ->
      truthy_json monthly = true ->
      object_entries monthly = Returned es ->
      omap history_point (rev (firstn 12 es)) = Thrown ->
      history_failure (Json document).

(** An entry of the monthly series, as the service sends it: a date and an
    object whose closing price is a string. *)
Definition monthly_entry (entry : string * json) (dc : string * string) : Prop :=
  exists fields,
    entry = (fst dc, JObj fields) /\
    assoc "4. close" fields = Some (JStr (snd dc)).

(** The chart point of a date and a closing price. *)
Definition point_of (dc : string * string) : Point :=
  {| date := substring0 7 (fst dc); price := parseFloat_string (snd dc) |}.

(** ** Sample responses of the service *)

Definition sample_quote : json :=
  JObj [("Global Quote",
         JObj [("01. symbol", JStr "AAPL");
               ("03. high", JStr "151.0000");
               ("04. low", JStr "148.0000");
               ("05. price", JStr "150.0000");
               ("09. change", JStr "2.5000");
               ("10. change percent", JStr "1.69%")])].

Definition sample_closes : list (string * string) :=
  [ ("2024-03-28", "171.4800"); ("2024-02-29", "180.7500");
    ("2024-01-31", "184.4000"); ("2023-12-29", "192.5300");
    ("2023-11-30", "189.9500"); ("2023-10-31", "170.7700");
    ("2023-09-29", "171.2100"); ("2023-08-31", "187.8700");
    ("2023-07-31", "196.4500"); ("2023-06-30", "193.9700");
    ("2023-05-31", "177.2500"); ("2023-04-28", "169.6800");
    ("2023-03-31", "164.9000") ].

Definition sample_history : json :=
  JObj [("Meta Data", JObj [("2. Symbol", JStr "AAPL")]);
        ("Monthly Time Series",
         JObj (map (fun dc => (fst dc, JObj [("1. open", JStr "170.0000");
                                             ("4. close", JStr (snd dc))]))
                   sample_closes))].

(** A network on which both requests for "aapl" succeed. *)
Definition sample_network : network :=
  fun url =>
    if String.eqb url (quote_url "aapl") then Json sample_quote
    else if String.eqb url (history_url "aapl") then Json sample_history
    else NetworkError.

Definition sample_summary : string :=
  glyph_up ++ " AAPL Stock Info:" ++ nl ++
  "Price: $150.00" ++ nl ++
  "Change: $2.50 (1.69%)" ++ nl ++
  "Today's High: $151.00" ++ nl ++
  "Today's Low: $148.00".

(** A network on which every request fails. *)
Definition offline : network := fun _ => NetworkError.

(** A network that answers every request with the same document. *)
Definition always (document : json) : network := fun _ => Json document.

(** A network on which the quote request for "aapl" succeeds and every
    other request fails. *)
Definition quote_only_network : network :=
  fun url =>
    if String.eqb url (quote_url "aapl") then Json sample_quote
    else NetworkError.

(** A quote whose price is an object that cannot be converted to a
    string. *)
Definition unprintable_quote : json :=
  JObj [("Global Quote",
         JObj [("05. price", JObj [("toString", JStr "")])])].

(** A network on which both requests for "aapl" succeed, the quote with a
    price that cannot be converted to a string. *)
Definition unprintable_network : network :=
  fun url =>
    if String.eqb url (quote_url "aapl") then Json unprintable_quote
    else if String.eqb url (history_url "aapl") then Json sample_history
    else NetworkError.

Fixpoint all_digits (s : string) : bool :=
  match s with
  | EmptyString => true
  | String c s' => is_digit c && all_digits s'
  end.

(** The string is an optional minus sign, at least one digit, a point and
    exactly two digits. *)
Definition has_two_decimals (s : string) : bool :=
  let body := match s with String "-" r => r | _ => s end in
  match span_digits body with
  | (String _ _, String "." (String d1 (String d2 EmptyString))) =>
      is_digit d1 && is_digit d2
  | _ => false
  end.

(** Finite, and below [10 ^ 21] in magnitude: the values [toFixed]
    renders in fixed notation. *)
Definition in_fixed_range (x : number) : bool :=
  match x with
  | S754_zero _ => true
  | S754_finite _ m e => negb (at_least (10 ^ 21) (Zpos m) e)
  | S754_infinity _ | S754_nan => false
  end.

(** The direction shown for a change: up for a value that is zero or
    above, or that rounds to no hundredth at all; down for the other
    negative values and for what is not a number. *)
Definition change_up (x : number) : bool :=
  match x with
  | S754_nan => false
  | S754_infinity s => negb s
  | S754_zero _ => true
  | S754_finite s m e =>
      negb s || (scale_half_up (Zpos m * 100) e =? 0)%Z
  end.

(** The string begins with a decimal digit. *)
Definition head_digit (s : string) : bool :=
  match s with
  | EmptyString => false
  | String c _ => is_digit c
  end.

(** A decimal digit other than zero. *)
Definition nonzero_digit (c : ascii) : bool :=
  is_digit c && negb (Ascii.eqb c "0").

(** A quote whose change is negative and smaller than half a hundredth. *)
Definition small_loss_quote : list (string * json) :=
  [ ("01. symbol", JStr "AAPL");
    ("03. high", JStr "151.0000");
    ("04. low", JStr "148.0000");
    ("05. price", JStr "150.0000");
    ("09. change", JStr "-0.0010");
    ("10. change percent", JStr "-0.0007%") ].

(** [period] is the first [n] characters of [s]: [s] begins with it, and
    it has [n] characters, or is the whole of a shorter [s]. *)
Definition first_characters (n : nat) (s period : string) : Prop :=
  (exists rest, s = period ++ rest) /\
  String.length period = Nat.min n (String.length s).

(** The chart point of an entry of the monthly series, in the words of
    the specification: the period is the first seven characters of the
    date, and the price is the closing value parsed as a float. *)
Definition projection (entry : string * json) (p : Point) : Prop :=
  first_characters 7 (fst entry) (date p) /\
  exists close printed,
    get (Some (snd entry)) "4. close" = Returned close /\
    ToString close = Returned printed /\
    price p = parseFloat_string printed.

(** ** The component state *)

(** The fields of a quote that [formatStockResponse] reads. *)
Definition quote_fields : list string :=
  [ "05. price"; "09. change"; "10. change percent"; "03. high"; "04. low" ].

(** The state [App] starts with. *)
Definition initial_state : AppState :=
  {| messages :=
       [{| message_text :=
             VString "Hi! I'm FinBot, your AI financial assistant. How can I help you today?";
           isBot := true;
           message_chartData := None |}];
     input := "";
     isLoading := false |}.

(** [setInput(e.target.value)], the [onChange] of the text field. *)
Definition setInput (value : string) (st : AppState) : AppState :=
  {| messages := messages st; input := value; isLoading := isLoading st |}.

(** A session: each text is typed into the field and submitted, one
    submission running to its end before the next. *)
Fixpoint session (net : network) (typed : list string)
         (st : AppState) (log : list string) : AppState * list string :=
  match typed with
  | [] => (st, log)
  | t :: rest =>
      let '(st', log') := handleSubmit (setInput t st) net log in
      session net rest st' log'
  end.

(** The messages are spoken in turn, beginning with the bot when
    [bot_next] holds, and a message of the user carries no chart. *)
Fixpoint speakers_alternate (bot_next : bool) (l : list Message) : bool :=
  match l with
  | [] => true
  | m :: l' =>
      Bool.eqb (isBot m) bot_next
      && (isBot m || match message_chartData m with None => true | Some _ => false end)
      && speakers_alternate (negb bot_next) l'
  end.

(** * Properties *)

(** ** Strings *)

Section StringFacts.

Lemma append_nil_r (s : string) : s ++ "" = s.
Proof. induction s as [|c s IH]; simpl; [reflexivity | now rewrite IH]. Qed.

Lemma append_assoc (a b c : string) : (a ++ b) ++ c = a ++ b ++ c.
Proof. induction a as [|x a IH]; simpl; [reflexivity | now rewrite IH]. Qed.

Lemma trimStart_decompose (s : string) :
  exists w, all_white w = true /\ s = w ++ trimStart s.
Proof.
  induction s as [|c s [w [Hw Hs]]]; simpl.
  - exists ""; split; reflexivity.
  - destruct (is_white c) eqn:Hc.
    + exists (String c w); simpl; rewrite Hc, Hw; split; [reflexivity|].
      now rewrite <- Hs.
    + exists ""; split; reflexivity.
Qed.

Lemma trimEnd_decompose (s : string) :
  exists w, all_white w = true /\ s = trimEnd s ++ w.
Proof.
  induction s as [|c s [w [Hw Hs]]]; simpl.
  - exists ""; split; reflexivity.
  - destruct (trimEnd s) as [|d t] eqn:Ht.
    + destruct (is_white c) eqn:Hc.
      * exists (String c w); simpl in *; rewrite Hc, Hw; split; [reflexivity|].
        now rewrite <- Hs.
      * exists w; split; [assumption|]. simpl in *. now rewrite <- Hs.
    + exists w; split; [assumption|]. simpl in *. now rewrite <- Hs.
Qed.

(** A string is its trimmed form between two runs of white space. *)
Lemma trim_decompose (s : string) :
  exists w1 w2,
    all_white w1 = true /\ all_white w2 = true /\ s = w1 ++ trim s ++ w2.
Proof.
  destruct (trimStart_decompose s) as [w1 [H1 E1]].
  destruct (trimEnd_decompose (trimStart s)) as [w2 [H2 E2]].
  exists w1, w2; repeat split; try assumption.
  unfold trim. now rewrite <- E2.
Qed.

Lemma trimStart_head (s : string) :
  trimStart s = "" \/ head_black (trimStart s) = true.
Proof.
  induction s as [|c s IH]; simpl; [now left|].
  destruct (is_white c) eqn:Hc; [assumption|].
  right; simpl; now rewrite Hc.
Qed.

Lemma trimEnd_last (s : string) :
  trimEnd s = "" \/ last_black (trimEnd s) = true.
Proof.
  induction s as [|c s IH]; simpl; [now left|].
  destruct (trimEnd s) as [|d t] eqn:Ht.
  - destruct (is_white c) eqn:Hc; [now left|].
    right; simpl; now rewrite Hc.
  - right. destruct IH as [IH|IH]; [discriminate|]. exact IH.
Qed.

Lemma trimEnd_head (s : string) :
  head_black s = true -> head_black (trimEnd s) = true.
Proof.
  destruct s as [|c s]; simpl; [discriminate|].
  intros Hc. destruct (trimEnd s); [|exact Hc].
  apply negb_true_iff in Hc. rewrite Hc. simpl. now rewrite Hc.
Qed.

(** A trimmed string is empty or has no white space at either end. *)
Lemma trim_edges (s : string) :
  trim s = "" \/ (head_black (trim s) = true /\ last_black (trim s) = true).
Proof.
  unfold trim.
  destruct (trimEnd_last (trimStart s)) as [E|L]; [now left|].
  right; split; [|exact L].
  destruct (trimStart_head s) as [E|H].
  - rewrite E in L. discriminate.
  - now apply trimEnd_head.
Qed.

Lemma prefix_nil (s : string) : String.prefix "" s = true.
Proof. destruct s; reflexivity. Qed.

Lemma prefix_cons (a b : ascii) (k s : string) :
  String.prefix (String a k) (String b s) = Ascii.eqb a b && String.prefix k s.
Proof.
  simpl. destruct (ascii_dec a b) as [->|N].
  - now rewrite Ascii.eqb_refl.
  - apply Ascii.eqb_neq in N. now rewrite N.
Qed.

Lemma prefix_white (k w : string) :
  all_white w = true -> String.prefix k w = true -> k = "" \/ last_black k = false.
Proof.
  revert w; induction k as [|c k IH]; intros w Hw Hp; [now left|].
  right. destruct w as [|d w]; [discriminate|].
  rewrite prefix_cons in Hp. apply andb_true_iff in Hp as [Hcd Hp].
  apply Ascii.eqb_eq in Hcd; subst d.
  simpl in Hw. apply andb_true_iff in Hw as [Hc Hw].
  destruct k as [|c' k'].
  - simpl. now rewrite Hc.
  - destruct (IH w Hw Hp) as [E|E]; [discriminate|]. exact E.
Qed.

Lemma prefix_app_white (k s w : string) :
  all_white w = true -> last_black k = true ->
  String.prefix k (s ++ w) = String.prefix k s.
Proof.
  revert s; induction k as [|c k IH]; intros s Hw Hk; [discriminate|].
  destruct s as [|d s].
  - simpl append. destruct (String.prefix (String c k) w) eqn:Hp.
    + destruct (prefix_white _ _ Hw Hp) as [E|E]; [discriminate|congruence].
    + reflexivity.
  - change (String d s ++ w) with (String d (s ++ w)).
    rewrite !prefix_cons. destruct k as [|c' k'].
    + now rewrite !prefix_nil.
    + rewrite IH; [reflexivity|assumption|exact Hk].
Qed.

Lemma includes_white (k w : string) :
  all_white w = true -> head_black k = true -> includes w k = false.
Proof.
  intros Hw Hk. destruct k as [|c k]; [discriminate|]. simpl in Hk.
  induction w as [|d w IH].
  - reflexivity.
  - simpl in Hw. apply andb_true_iff in Hw as [Hd Hw].
    cbn [includes]. rewrite prefix_cons, (IH Hw).
    destruct (Ascii.eqb c d) eqn:E; [|reflexivity].
    apply Ascii.eqb_eq in E; subst d. rewrite Hd in Hk. discriminate.
Qed.

Lemma includes_pad_right (s k w : string) :
  all_white w = true -> head_black k = true -> last_black k = true ->
  includes (s ++ w) k = includes s k.
Proof.
  intros Hw Hh Hl. induction s as [|c s IH].
  - simpl append. rewrite (includes_white k w Hw Hh).
    destruct k; [discriminate|reflexivity].
  - change (String c s ++ w) with (String c (s ++ w)).
    cbn [includes]. rewrite IH.
    change (String c (s ++ w)) with (String c s ++ w).
    now rewrite prefix_app_white.
Qed.

Lemma includes_pad_left (s k w : string) :
  all_white w = true -> head_black k = true ->
  includes (w ++ s) k = includes s k.
Proof.
  intros Hw Hh. destruct k as [|c k]; [discriminate|]. simpl in Hh.
  induction w as [|d w IH]; [reflexivity|].
  simpl in Hw. apply andb_true_iff in Hw as [Hd Hw].
  change (String d w ++ s) with (String d (w ++ s)).
  cbn [includes]. rewrite prefix_cons, (IH Hw).
  destruct (Ascii.eqb c d) eqn:E; [|reflexivity].
  apply Ascii.eqb_eq in E; subst d. rewrite Hd in Hh. discriminate.
Qed.

(** White space around a message does not change which triggers it
    contains. *)
Lemma includes_padded (s k w1 w2 : string) :
  all_white w1 = true -> all_white w2 = true ->
  head_black k = true -> last_black k = true ->
  includes (w1 ++ s ++ w2) k = includes s k.
Proof.
  intros H1 H2 Hh Hl.
  rewrite includes_pad_left by assumption.
  now apply includes_pad_right.
Qed.

Lemma startsWith_padded (s k w1 w2 : string) :
  all_white w1 = true -> all_white w2 = true ->
  head_black k = true -> last_black k = true ->
  startsWith s k = false -> head_black s = true ->
  startsWith (w1 ++ s ++ w2) k = false.
Proof.
  unfold startsWith. intros H1 H2 Hh Hl Hs Hb.
  destruct w1 as [|d w1].
  - simpl append. now rewrite prefix_app_white.
  - destruct k as [|c k]; [discriminate|].
    change (String d w1 ++ s ++ w2) with (String d (w1 ++ s ++ w2)).
    rewrite prefix_cons. simpl in H1, Hh.
    apply andb_true_iff in H1 as [Hd _].
    destruct (Ascii.eqb c d) eqn:E; [|reflexivity].
    apply Ascii.eqb_eq in E; subst d. rewrite Hd in Hh. discriminate.
Qed.

End StringFacts.

(** ** [split] and [join] *)

Section SplitJoin.

Variable sep : ascii.

Lemma split_not_nil (s : string) : split sep s <> [].
Proof.
  induction s as [|c s IH]; simpl; [discriminate|].
  destruct (Ascii.eqb c sep); [discriminate|].
  destruct (split sep s); [contradiction|discriminate].
Qed.

Lemma join_cons (p : string) (ps : list string) :
  ps <> [] ->
  join (String sep "") (p :: ps) = p ++ String sep (join (String sep "") ps).
Proof. destruct ps; [contradiction|reflexivity]. Qed.

(** Joining the pieces with the separator gives the string back. *)
Lemma join_split (s : string) : join (String sep "") (split sep s) = s.
Proof.
  induction s as [|c s IH]; [reflexivity|].
  simpl split. destruct (Ascii.eqb c sep) eqn:E.
  - apply Ascii.eqb_eq in E; subst c.
    rewrite join_cons by apply split_not_nil. simpl. now rewrite IH.
  - destruct (split sep s) as [|p ps] eqn:Hs; [now apply split_not_nil in Hs|].
    destruct ps as [|q qs].
    + simpl in *. now rewrite IH.
    + rewrite join_cons by discriminate.
      rewrite join_cons in IH by discriminate.
      now rewrite <- IH.
Qed.

Lemma split_head_no_sep (s : string) :
  has_char sep (hd "" (split sep s)) = false.
Proof.
  induction s as [|c s IH]; [reflexivity|].
  simpl split. destruct (Ascii.eqb c sep) eqn:E; [reflexivity|].
  destruct (split sep s) as [|p ps]; simpl in *; now rewrite E.
Qed.

Lemma split_no_sep (s : string) :
  has_char sep s = false -> split sep s = [s].
Proof.
  induction s as [|c s IH]; [reflexivity|].
  simpl. intros H. apply orb_false_iff in H as [E H].
  rewrite E, (IH H). reflexivity.
Qed.

End SplitJoin.

(** [parseCommand] cuts the trimmed lowercase message at its first space. *)
Lemma parseCommand_cut (message : string) :
  let t := trim (toLowerCase message) in
  let p := parseCommand message in
  has_char " " (command p) = false /\
  ((has_char " " t = false /\ command p = t /\ args p = "") \/
   t = command p ++ " " ++ args p).
Proof.
  intros t p. subst p. unfold parseCommand. fold t. cbn [command args].
  split; [apply split_head_no_sep|].
  pose proof (join_split " " t) as J.
  destruct (split " " t) as [|c ps] eqn:Hs; [now apply split_not_nil in Hs|].
  cbn [hd tl]. destruct ps as [|q qs].
  - left. simpl in J. subst c.
    pose proof (split_head_no_sep " " t) as H. rewrite Hs in H. simpl in H.
    repeat split. exact H.
  - right. rewrite join_cons in J by discriminate. now rewrite <- J.
Qed.

(** ** The two fetchers *)

Ltac kcbn :=
  cbn -[get truthy_json keys_length object_entries omap firstn rev
        formatStockResponse parseCommand toLowerCase lookup find].

Lemma getStockData_log (symbol : string) (net : network) (log : list string) :
  getStockData symbol net log =
  (quote_result symbol net, (log ++ [quote_url symbol])%list).
Proof.
  unfold quote_result, getStockData, try_catch, bind, fetch_json, lift, ret.
  cbn [fst]. destruct (net (quote_url symbol)) as [| |document]; kcbn; try reflexivity.
  destruct (get (Some document) "Note") as [note|]; kcbn; [|reflexivity].
  destruct (truthy_json note); kcbn; [reflexivity|].
  destruct (get (Some document) "Global Quote") as [quote|]; kcbn; [|reflexivity].
  destruct (truthy_json quote); kcbn; [|reflexivity].
  destruct (keys_length quote) as [n|]; kcbn; [|reflexivity].
  destruct (n =? 0)%nat; reflexivity.
Qed.

Lemma getHistoricalData_log (symbol : string) (net : network) (log : list string) :
  getHistoricalData symbol net log =
  (history_result symbol net, (log ++ [history_url symbol])%list).
Proof.
  unfold history_result, getHistoricalData, try_catch, bind, fetch_json, lift, ret.
  cbn [fst]. destruct (net (history_url symbol)) as [| |document]; kcbn; try reflexivity.
  destruct (get (Some document) "Note") as [note|]; kcbn; [|reflexivity].
  destruct (truthy_json note); kcbn; [reflexivity|].
  destruct (get (Some document) "Monthly Time Series") as [monthly|]; kcbn;
    [|reflexivity].
  destruct (truthy_json monthly); kcbn; [|reflexivity].
  destruct (object_entries monthly) as [es|]; kcbn; [|reflexivity].
  destruct (omap history_point (rev (firstn 12 es))); reflexivity.
Qed.

(** Neither fetcher throws: each failure becomes an [error] reply. *)
Lemma getStockData_returns (symbol : string) (net : network) :
  exists r, quote_result symbol net = Returned r.
Proof.
  unfold quote_result, getStockData, try_catch, bind, fetch_json, lift, ret.
  cbn [fst]. destruct (net (quote_url symbol)) as [| |document]; kcbn; try (eexists; reflexivity).
  destruct (get (Some document) "Note") as [note|]; kcbn; try (eexists; reflexivity).
  destruct (truthy_json note); kcbn; try (eexists; reflexivity).
  destruct (get (Some document) "Global Quote") as [quote|]; kcbn; try (eexists; reflexivity).
  destruct (truthy_json quote); kcbn; try (eexists; reflexivity).
  destruct (keys_length quote) as [n|]; kcbn; try (eexists; reflexivity).
  destruct (n =? 0)%nat; eexists; reflexivity.
Qed.

Lemma getHistoricalData_returns (symbol : string) (net : network) :
  exists r, history_result symbol net = Returned r.
Proof.
  unfold history_result, getHistoricalData, try_catch, bind, fetch_json, lift, ret.
  cbn [fst]. destruct (net (history_url symbol)) as [| |document]; kcbn; try (eexists; reflexivity).
  destruct (get (Some document) "Note") as [note|]; kcbn; try (eexists; reflexivity).
  destruct (truthy_json note); kcbn; try (eexists; reflexivity).
  destruct (get (Some document) "Monthly Time Series") as [monthly|]; kcbn; try (eexists; reflexivity).
  destruct (truthy_json monthly); kcbn; try (eexists; reflexivity).
  destruct (object_entries monthly) as [es|]; kcbn; try (eexists; reflexivity).
  destruct (omap history_point (rev (firstn 12 es))); eexists; reflexivity.
Qed.

(** ** The branches of [getBotResponse] *)

Lemma getBotResponse_of_traced (m : string) (net : network) (log : list string) :
  getBotResponse m net log =
  match getBotResponse_traced m net log with
  | (Returned r, log') => (Returned (snd r), log')
  | (Thrown, log') => (Thrown, log')
  end.
Proof. reflexivity. Qed.

Lemma stock_branch (m : string) (net : network) (log : list string)
      (q : reply json) (h : reply (list Point)) :
  stock_command m = true ->
  quote_result (symbol_of m) net = Returned q ->
  history_result (symbol_of m) net = Returned h ->
  getBotResponse_traced m net log =
  (match truthy_error q with
   | Some msg => Returned (StockBranch, plain msg)
   | None =>
       match formatStockResponse (data q) (symbol_of m) with
       | Returned response =>
           Returned
             (StockBranch,
              match truthy_error h with
              | None =>
                  {| text := VString response;
                     chartData := Some {| symbol := toUpperCase (symbol_of m);
                                          series := data h |} |}
              | Some _ => plain response
              end)
       | Thrown => Thrown
       end
   end,
   (log ++ [quote_url (symbol_of m); history_url (symbol_of m)])%list).
Proof.
  intros Hs Hq Hh. unfold getBotResponse_traced. cbv zeta.
  change (String.eqb (command (parseCommand m)) "stock"
          && truthy (args (parseCommand m)))%bool with (stock_command m).
  rewrite Hs.
  change (hd "" (split " " (args (parseCommand m)))) with (symbol_of m).
  unfold bind. rewrite getStockData_log, Hq, getHistoricalData_log, Hh.
  rewrite <- app_assoc. cbn [app].
  destruct (truthy_error q); [reflexivity|].
  unfold lift. destruct (formatStockResponse (data q) (symbol_of m));
    [|reflexivity].
  destruct (truthy_error h); reflexivity.
Qed.

Lemma exact_branch (m : string) (net : network) (log : list string) (v : value) :
  stock_command m = false ->
  truthy_lookup (toLowerCase m) = Some v ->
  getBotResponse_traced m net log =
  (Returned (ExactBranch, {| text := v; chartData := None |}), log).
Proof.
  intros Hs Hl. unfold getBotResponse_traced. cbv zeta.
  change (String.eqb (command (parseCommand m)) "stock"
          && truthy (args (parseCommand m)))%bool with (stock_command m).
  now rewrite Hs, Hl.
Qed.

Lemma partial_branch (m : string) (net : network) (log : list string)
      (k a : string) :
  stock_command m = false ->
  truthy_lookup (toLowerCase m) = None ->
  find (fun kv => includes (toLowerCase m) (fst kv)) predefinedResponses
    = Some (k, a) ->
  getBotResponse_traced m net log = (Returned (PartialBranch, plain a), log).
Proof.
  intros Hs Hl Hf. unfold getBotResponse_traced. cbv zeta.
  change (String.eqb (command (parseCommand m)) "stock"
          && truthy (args (parseCommand m)))%bool with (stock_command m).
  now rewrite Hs, Hl, Hf.
Qed.

Lemma default_branch (m : string) (net : network) (log : list string) :
  stock_command m = false ->
  truthy_lookup (toLowerCase m) = None ->
  find (fun kv => includes (toLowerCase m) (fst kv)) predefinedResponses = None ->
  startsWith (toLowerCase m) "what is" = false ->
  startsWith (toLowerCase m) "explain" = false ->
  getBotResponse_traced m net log =
  (Returned (DefaultBranch, plain default_text), log).
Proof.
  intros Hs Hl Hf H1 H2. unfold getBotResponse_traced. cbv zeta.
  change (String.eqb (command (parseCommand m)) "stock"
          && truthy (args (parseCommand m)))%bool with (stock_command m).
  now rewrite Hs, Hl, Hf, H1, H2.
Qed.

(** ** The knowledge table *)

Lemma assoc_In {A : Type} (key : string) (l : list (string * A)) (v : A) :
  assoc key l = Some v -> In (key, v) l.
Proof.
  induction l as [|[k w] l IH]; simpl; [discriminate|].
  destruct (String.eqb key k) eqn:E.
  - intros [= ->]. apply String.eqb_eq in E. subst. now left.
  - intros H. right. now apply IH.
Qed.

Lemma lookup_truthy (s : string) (v : value) :
  truthy_lookup s = Some v ->
  In s (map fst predefinedResponses ++ object_prototype_members).
Proof.
  unfold truthy_lookup, lookup.
  destruct (assoc s predefinedResponses) as [a|] eqn:E.
  - intros _. apply in_or_app. left.
    apply assoc_In in E. now apply (in_map fst) in E.
  - destruct (existsb (String.eqb s) object_prototype_members) eqn:X;
      [|discriminate].
    intros _. apply in_or_app. right.
    apply existsb_exists in X as [x [Hx Ex]].
    apply String.eqb_eq in Ex. now subst.
Qed.

Lemma find_first {A : Type} (P : A -> bool) (pre post : list A) (x : A) :
  (forall y, In y pre -> P y = false) -> P x = true ->
  find P (pre ++ x :: post) = Some x.
Proof.
  intros Hpre Hx. induction pre as [|y pre IH]; simpl.
  - now rewrite Hx.
  - rewrite (Hpre y) by now left. apply IH. intros z Hz. apply Hpre. now right.
Qed.

(** Every trigger and every inherited name is its own trimmed form, and
    begins and ends with a character that is not white space. *)
Lemma names_black :
  forallb (fun k => String.eqb (trim k) k && head_black k && last_black k)
          (map fst predefinedResponses ++ object_prototype_members) = true.
Proof. vm_compute. reflexivity. Qed.

(** No trigger occurs inside another trigger or inside an inherited name. *)
Lemma triggers_disjoint :
  forallb (fun k =>
             forallb (fun s => negb (includes s k) || String.eqb s k)
                     (map fst predefinedResponses ++ object_prototype_members))
          (map fst predefinedResponses) = true.
Proof. vm_compute. reflexivity. Qed.

Lemma triggers_nodup : NoDup (map fst predefinedResponses).
Proof.
  cbn. repeat constructor; cbn; intuition discriminate.
Qed.

Lemma In_assoc_nodup {A : Type} (l : list (string * A)) (k : string) (v : A) :
  NoDup (map fst l) -> In (k, v) l -> assoc k l = Some v.
Proof.
  induction l as [|[k' v'] l IH]; simpl; [contradiction|].
  intros Hnd [E|Hin].
  - injection E as -> ->. now rewrite String.eqb_refl.
  - inversion Hnd as [|? ? Hnot Hnd']; subst.
    destruct (String.eqb k k') eqn:E.
    + apply String.eqb_eq in E; subst k'.
      exfalso. apply Hnot. now apply (in_map fst) in Hin.
    + now apply IH.
Qed.

(** Every answer of the table is truthy. *)
Lemma answers_truthy :
  forallb (fun kv => truthy (snd kv)) predefinedResponses = true.
Proof. vm_compute. reflexivity. Qed.

Lemma truthy_lookup_trigger (k a : string) :
  In (k, a) predefinedResponses -> truthy_lookup k = Some (VString a).
Proof.
  intros Hin. unfold truthy_lookup, lookup.
  rewrite (In_assoc_nodup _ _ _ triggers_nodup Hin). cbn [truthy_value].
  pose proof answers_truthy as T. rewrite forallb_forall in T.
  specialize (T (k, a) Hin). cbn [snd] in T. now rewrite T.
Qed.

Lemma trigger_names (k a : string) :
  In (k, a) predefinedResponses ->
  In k (map fst predefinedResponses) /\
  In k (map fst predefinedResponses ++ object_prototype_members).
Proof.
  intros H. apply (in_map fst) in H. split; [exact H|].
  apply in_or_app. now left.
Qed.

Lemma name_black (s : string) :
  In s (map fst predefinedResponses ++ object_prototype_members) ->
  trim s = s /\ head_black s = true /\ last_black s = true.
Proof.
  intros H. pose proof names_black as B.
  rewrite forallb_forall in B. specialize (B s H).
  apply andb_true_iff in B as [B L]. apply andb_true_iff in B as [T Hd].
  apply String.eqb_eq in T. now repeat split.
Qed.

Lemma trigger_inside (k s : string) :
  In k (map fst predefinedResponses) ->
  In s (map fst predefinedResponses ++ object_prototype_members) ->
  includes s k = true -> s = k.
Proof.
  intros Hk Hs Hi. pose proof triggers_disjoint as D.
  rewrite forallb_forall in D. specialize (D k Hk).
  rewrite forallb_forall in D. specialize (D s Hs).
  rewrite Hi in D. simpl in D. now apply String.eqb_eq.
Qed.

Lemma prefix_refl (s : string) : String.prefix s s = true.
Proof.
  induction s as [|c s IH]; [reflexivity|].
  rewrite prefix_cons, Ascii.eqb_refl. exact IH.
Qed.

Lemma includes_refl (s : string) : includes s s = true.
Proof. destruct s; cbn [includes]; now rewrite prefix_refl. Qed.

(** The substring scan and the exact lookup before it agree on the
    earliest declared trigger that the lowercase message contains. *)
Lemma earliest_trigger (m : string) (net : network) (log : list string)
      (pre post : list (string * string)) (k a : string) :
  stock_command m = false ->
  predefinedResponses = (pre ++ (k, a) :: post)%list ->
  includes (toLowerCase m) k = true ->
  (forall y, In y pre -> includes (toLowerCase m) (fst y) = false) ->
  exists b,
    (b = ExactBranch \/ b = PartialBranch) /\
    getBotResponse_traced m net log = (Returned (b, plain a), log).
Proof.
  intros Hs Hsplit Hk Hpre.
  assert (Hin : In (k, a) predefinedResponses).
  { rewrite Hsplit. apply in_or_app. right. now left. }
  destruct (truthy_lookup (toLowerCase m)) as [v|] eqn:Hl.
  - exists ExactBranch. split; [now left|].
    pose proof (lookup_truthy _ _ Hl) as Hname.
    destruct (trigger_names k a Hin) as [Hk1 _].
    pose proof (trigger_inside k _ Hk1 Hname Hk) as E.
    apply exact_branch; [assumption|].
    rewrite E. now apply truthy_lookup_trigger.
  - exists PartialBranch. split; [now right|].
    apply partial_branch with (k := k); [assumption..|].
    rewrite Hsplit.
    apply (find_first (fun kv => includes (toLowerCase m) (fst kv))); assumption.
Qed.

Lemma triggers_not_stock :
  forallb (fun k => negb (String.eqb (hd "" (split " " k)) "stock"))
          (map fst predefinedResponses) = true.
Proof. vm_compute. reflexivity. Qed.

Lemma nodup_before {A : Type} (pre post : list (string * A)) (k : string) (a : A) :
  NoDup (map fst (pre ++ (k, a) :: post)) ->
  forall y, In y pre -> fst y <> k.
Proof.
  induction pre as [|x pre IH]; simpl; [contradiction|].
  intros Hnd y [->|Hy].
  - inversion Hnd as [|? ? Hnot _]; subst. intros E. apply Hnot.
    rewrite map_app. apply in_or_app. right. simpl. now left.
  - inversion Hnd; subst. now apply IH.
Qed.

(** A message that is a trigger between white space is answered with that
    trigger's text, by the exact lookup or by the scan. *)
Lemma padded_trigger (raw : string) (net : network) (log : list string)
      (key answer : string) :
  In (key, answer) predefinedResponses ->
  trim (toLowerCase raw) = key ->
  exists b,
    (b = ExactBranch \/ b = PartialBranch) /\
    getBotResponse_traced raw net log = (Returned (b, plain answer), log).
Proof.
  intros Hin Ht.
  destruct (trigger_names key answer Hin) as [Hk Hn].
  destruct (name_black key Hn) as [_ [Hh Hl]].
  destruct (trim_decompose (toLowerCase raw)) as [w1 [w2 [H1 [H2 E]]]].
  rewrite Ht in E.
  destruct (in_split _ _ Hin) as [pre [post Hsplit]].
  apply earliest_trigger with (pre := pre) (post := post) (k := key).
  - unfold stock_command, parseCommand. cbn [command args]. rewrite Ht.
    pose proof triggers_not_stock as N. rewrite forallb_forall in N.
    specialize (N key Hk). apply negb_true_iff in N. now rewrite N.
  - exact Hsplit.
  - rewrite E, includes_padded by assumption. apply includes_refl.
  - intros y Hy.
    assert (Hyk : In (fst y) (map fst predefinedResponses)).
    { rewrite Hsplit, map_app. apply in_or_app. left. now apply in_map. }
    assert (Hyn : In (fst y) (map fst predefinedResponses ++ object_prototype_members)).
    { apply in_or_app. now left. }
    destruct (name_black (fst y) Hyn) as [_ [Hyh Hyl]].
    rewrite E, includes_padded by assumption.
    destruct (includes key (fst y)) eqn:I; [|reflexivity].
    exfalso. pose proof (trigger_inside (fst y) key Hyk Hn I) as Eq.
    pose proof triggers_nodup as ND. rewrite Hsplit in ND.
    apply (nodup_before pre post key answer ND y Hy). now symmetry.
Qed.

(** C1. For every input whose trimmed lowercase form is a trigger of the
    knowledge table, [getBotResponse] returns that trigger's stored text
    and no chart, and touches no network; the input "what is a stock"
    leaves by the exact-lookup return, before the scan and the
    definition-prefix branch are reached. *)
Theorem exact_trigger_answer :
  (forall raw key answer net log,
      In (key, answer) predefinedResponses ->
      trim (toLowerCase raw) = key ->
      getBotResponse raw net log =
      (Returned {| text := VString answer; chartData := None |}, log))
  /\
  (forall net log,
      getBotResponse_traced "what is a stock" net log =
      (Returned (ExactBranch,
                 {| text := VString stock_text; chartData := None |}), log)).
Proof.
  split.
  - intros raw key answer net log Hin Ht.
    destruct (padded_trigger raw net log key answer Hin Ht) as [b [_ Hb]].
    rewrite getBotResponse_of_traced, Hb. reflexivity.
  - intros net log. apply exact_branch; reflexivity.
Qed.

Lemma exact_trigger_answer_witness :
  getBotResponse "  Market Basics " (fun _ => NetworkError) [] =
  (Returned {| text := VString market_text; chartData := None |}, []).
Proof.
  apply (proj1 exact_trigger_answer "  Market Basics " "market basics").
  - cbn. intuition.
  - vm_compute. reflexivity.
Defined.

(** C2, as stated, fails: the pieces are cut at every single space, so the
    spaces between "Stock" and "AAPL" stay in [args]. *)
Lemma parse_runs_counterexample :
  parseCommand "  Stock   AAPL  " = {| command := "stock"; args := "  aapl" |}
  /\ parseCommand "  Stock   AAPL  " <> {| command := "stock"; args := "aapl" |}.
Proof.
  split; [vm_compute; reflexivity|].
  vm_compute. intros H. discriminate H.
Qed.

(** C2, amended. [parseCommand] lowercases the message, trims it, and cuts
    it at its first space: [command] is what stands before that space and
    holds no space, [args] is everything after it, unchanged (further
    spaces included); without a space the whole is [command] and [args] is
    empty.  So "  Stock   AAPL  " gives command "stock" and args "  aapl",
    and the empty message gives two empty strings; no input is refused. *)
Theorem parseCommand_first_space :
  (forall message,
      let t := trim (toLowerCase message) in
      let p := parseCommand message in
      has_char " " (command p) = false /\
      ((has_char " " t = false /\ command p = t /\ args p = "") \/
       t = command p ++ " " ++ args p))
  /\ parseCommand "  Stock   AAPL  " = {| command := "stock"; args := "  aapl" |}
  /\ parseCommand "" = {| command := ""; args := "" |}.
Proof.
  split; [exact parseCommand_cut|].
  split; vm_compute; reflexivity.
Qed.

Lemma find_none {A : Type} (P : A -> bool) (l : list A) :
  forallb (fun x => negb (P x)) l = true -> find P l = None.
Proof.
  induction l as [|x l IH]; simpl; [reflexivity|].
  intros H. apply andb_true_iff in H as [Hx Hl].
  apply negb_true_iff in Hx. rewrite Hx. now apply IH.
Qed.

Lemma last_black_app_white (s : string) (c : ascii) :
  is_white c = true -> last_black (s ++ String c "") = false.
Proof.
  intros Hc. induction s as [|d s IH]; simpl.
  - now rewrite Hc.
  - destruct (s ++ String c "") eqn:E; [destruct s; discriminate|exact IH].
Qed.

(** A bare "stock" is the only trimmed message that parses to the command
    "stock" with empty arguments. *)
Lemma bare_stock (m : string) :
  command (parseCommand m) = "stock" -> args (parseCommand m) = "" ->
  trim (toLowerCase m) = "stock".
Proof.
  intros Hc Ha. destruct (parseCommand_cut m) as [_ [[_ [E _]]|E]].
  - now rewrite <- E.
  - rewrite Hc, Ha in E. exfalso.
    destruct (trim_edges (toLowerCase m)) as [T|[_ T]];
      rewrite E in T; discriminate.
Qed.

(** C10. When the message parses to the command "stock" with an empty
    argument remainder, [getBotResponse] requests nothing from the network
    (the log is unchanged), passes the knowledge-table branches and leaves
    by the last return with the default text and no chart. *)
Theorem bare_stock_falls_through (m : string) (net : network) (log : list string) :
  command (parseCommand m) = "stock" ->
  args (parseCommand m) = "" ->
  getBotResponse_traced m net log =
  (Returned (DefaultBranch, {| text := VString default_text; chartData := None |}),
   log).
Proof.
  intros Hc Ha. pose proof (bare_stock m Hc Ha) as Ht.
  destruct (trim_decompose (toLowerCase m)) as [w1 [w2 [H1 [H2 E]]]].
  rewrite Ht in E.
  apply default_branch.
  - unfold stock_command. rewrite Ha. apply andb_false_r.
  - destruct (truthy_lookup (toLowerCase m)) as [v|] eqn:Hl; [|reflexivity].
    exfalso. pose proof (lookup_truthy _ _ Hl) as Hn.
    destruct (name_black _ Hn) as [T _]. rewrite Ht in T.
    rewrite <- T in Hn. cbn in Hn. intuition discriminate.
  - apply find_none. rewrite E. cbn [forallb predefinedResponses fst].
    rewrite !includes_padded by (assumption || reflexivity).
    vm_compute. reflexivity.
  - rewrite E. apply startsWith_padded; (assumption || reflexivity).
  - rewrite E. apply startsWith_padded; (assumption || reflexivity).
Qed.

Lemma bare_stock_falls_through_witness :
  getBotResponse_traced "  STOCK  " (fun _ => NetworkError) [] =
  (Returned (DefaultBranch, {| text := VString default_text; chartData := None |}),
   []).
Proof.
  apply bare_stock_falls_through; vm_compute; reflexivity.
Defined.

(** C7, as stated, fails: a message that holds two triggers but begins with
    the stock command is answered by the stock branch. *)
Lemma scan_order_counterexample :
  includes (toLowerCase "stock hello help") "hello" = true /\
  includes (toLowerCase "stock hello help") "help" = true /\
  fst (getBotResponse "stock hello help" (fun _ => NetworkError) []) <>
  Returned {| text := VString hello_text; chartData := None |}.
Proof.
  split; [vm_compute; reflexivity|].
  split; [vm_compute; reflexivity|].
  vm_compute. intros H. discriminate H.
Qed.

(** C7, amended. For a message that does not take the stock branch, the
    triggers are tried in declaration order and the earliest declared
    trigger that the lowercase message contains gives the answer: when a
    trigger is contained and none declared before it is, its text is
    returned, with no chart and no network request. *)
Theorem earliest_contained_trigger_wins
        (m : string) (net : network) (log : list string)
        (pre post : list (string * string)) (k a : string) :
  stock_command m = false ->
  predefinedResponses = (pre ++ (k, a) :: post)%list ->
  includes (toLowerCase m) k = true ->
  (forall y, In y pre -> includes (toLowerCase m) (fst y) = false) ->
  getBotResponse m net log =
  (Returned {| text := VString a; chartData := None |}, log).
Proof.
  intros Hs Hsplit Hk Hpre.
  destruct (earliest_trigger m net log pre post k a Hs Hsplit Hk Hpre)
    as [b [_ Hb]].
  rewrite getBotResponse_of_traced, Hb. reflexivity.
Qed.

Lemma earliest_contained_trigger_wins_witness :
  getBotResponse "I need help with market basics" (fun _ => NetworkError) [] =
  (Returned {| text := VString help_text; chartData := None |}, []).
Proof.
  apply (earliest_contained_trigger_wins
           "I need help with market basics" (fun _ => NetworkError) []
           [("hello", hello_text)]
           [("what is a stock", stock_text); ("investment tips", tips_text);
            ("market basics", market_text);
            ("explain investing", investing_text); ("default", default_text)]
           "help" help_text).
  - vm_compute. reflexivity.
  - reflexivity.
  - vm_compute. reflexivity.
  - intros y [<-|[]]. vm_compute. reflexivity.
Defined.

(** ** The stock branch *)

Lemma getBotResponse_stock (m : string) (net : network) (log : list string)
      (q : reply json) (h : reply (list Point)) :
  stock_command m = true ->
  quote_result (symbol_of m) net = Returned q ->
  history_result (symbol_of m) net = Returned h ->
  getBotResponse m net log =
  (match truthy_error q with
   | Some msg => Returned (plain msg)
   | None =>
       match formatStockResponse (data q) (symbol_of m) with
       | Returned response =>
           Returned
             (match truthy_error h with
              | None =>
                  {| text := VString response;
                     chartData := Some {| symbol := toUpperCase (symbol_of m);
                                          series := data h |} |}
              | Some _ => plain response
              end)
       | Thrown => Thrown
       end
   end,
   (log ++ [quote_url (symbol_of m); history_url (symbol_of m)])%list).
Proof.
  intros Hs Hq Hh.
  rewrite getBotResponse_of_traced, (stock_branch m net log q h Hs Hq Hh).
  destruct (truthy_error q); [reflexivity|].
  destruct (formatStockResponse (data q) (symbol_of m)); reflexivity.
Qed.



Lemma quote_rate_limited (s : string) (net : network)
      (props : list (string * json)) :
  net (quote_url s) = Json (JObj props) ->
  truthy_json (assoc "Note" props) = true ->
  quote_result s net = Returned (failed rate_limit_text).
Proof.
  unfold quote_result, getStockData, try_catch, bind, fetch_json, lift, ret.
  intros H T. rewrite H. kcbn. cbn [get]. now rewrite T.
Qed.

Lemma quote_not_found (s : string) (net : network)
      (props : list (string * json)) :
  net (quote_url s) = Json (JObj props) ->
  truthy_json (assoc "Note" props) = false ->
  assoc "Global Quote" props = None \/
  assoc "Global Quote" props = Some (JObj []) ->
  quote_result s net =
  Returned (failed ("Could not find stock data for symbol: " ++ s)).
Proof.
  unfold quote_result, getStockData, try_catch, bind, fetch_json, lift, ret.
  intros H T G. rewrite H. kcbn. cbn [get]. rewrite T.
  destruct G as [G|G]; rewrite G; reflexivity.
Qed.

Lemma history_failure_reply (s : string) (net : network) :
  history_failure (net (history_url s)) ->
  exists h msg, history_result s net = Returned h /\ truthy_error h = Some msg.
Proof.
  unfold history_result, getHistoricalData, try_catch, bind, fetch_json, lift, ret.
  cbn [fst].
  intros F. destruct F as
    [ | | document Hn | document note Hn Tn
     | document note monthly Hn Tn Hm Tm
     | document note monthly es Hn Tn Hm Tm He Ho ]; kcbn.
  - eexists; eexists; split; reflexivity.
  - eexists; eexists; split; reflexivity.
  - rewrite Hn. kcbn. eexists; eexists; split; reflexivity.
  - rewrite Hn. kcbn. rewrite Tn. eexists; eexists; split; reflexivity.
  - rewrite Hn. kcbn. rewrite Tn, Hm. kcbn. rewrite Tm. kcbn.
    eexists; eexists; split; reflexivity.
  - rewrite Hn. kcbn. rewrite Tn, Hm. kcbn. rewrite Tm. kcbn. rewrite He. kcbn.
    rewrite Ho. eexists; eexists; split; reflexivity.
Qed.

(** These are all the ways: an [error] reply comes from one of them. *)
Lemma history_reply_failure (s : string) (net : network)
      (h : reply (list Point)) (msg : string) :
  history_result s net = Returned h -> truthy_error h = Some msg ->
  history_failure (net (history_url s)).
Proof.
  unfold history_result, getHistoricalData, try_catch, bind, fetch_json, lift, ret.
  cbn [fst].
  destruct (net (history_url s)) as [| |document]; kcbn;
    [constructor|constructor|].
  destruct (get (Some document) "Note") as [note|] eqn:Hn; kcbn;
    [|intros; now apply failure_read].
  destruct (truthy_json note) eqn:Tn; kcbn;
    [intros; now apply failure_rate_limit with note|].
  destruct (get (Some document) "Monthly Time Series") as [monthly|] eqn:Hm; kcbn.
  2:{ destruct document; cbn in Hn, Hm; discriminate. }
  destruct (truthy_json monthly) eqn:Tm; kcbn;
    [|intros; now apply failure_no_data with note monthly].
  destruct (object_entries monthly) as [es|] eqn:He; kcbn.
  2:{ destruct monthly as [[]|]; cbn in Tm, He; discriminate. }
  destruct (omap history_point (rev (firstn 12 es))) eqn:Ho; kcbn.
  - intros [= <-]. discriminate.
  - intros; now apply failure_entry with note monthly es.
Qed.

Lemma history_point_entry (entry : string * json) (dc : string * string) :
  monthly_entry entry dc -> history_point entry = Returned (point_of dc).
Proof.
  intros [fields [-> Hc]]. unfold history_point, point_of.
  cbn [get obind]. rewrite Hc. reflexivity.
Qed.

Lemma omap_entries (l : list (string * json)) (r : list (string * string)) :
  Forall2 monthly_entry l r ->
  omap history_point l = Returned (map point_of r).
Proof.
  induction 1 as [|e dc l r He _ IH]; [reflexivity|].
  cbn [omap map]. rewrite (history_point_entry e dc He), IH. reflexivity.
Qed.

Lemma Forall2_rev {A B : Type} (R : A -> B -> Prop) (l : list A) (l' : list B) :
  Forall2 R l l' -> Forall2 R (rev l) (rev l').
Proof.
  induction 1 as [|x y l l' Hxy _ IH]; [constructor|].
  simpl. apply Forall2_app; [exact IH|]. constructor; [exact Hxy|constructor].
Qed.

(** The series of a well-formed history document: the first twelve entries,
    last first, each turned into a chart point. *)
Lemma history_series (s : string) (net : network)
      (props monthly : list (string * json)) (recent : list (string * string)) :
  net (history_url s) = Json (JObj props) ->
  truthy_json (assoc "Note" props) = false ->
  assoc "Monthly Time Series" props = Some (JObj monthly) ->
  Forall2 monthly_entry (firstn 12 monthly) recent ->
  history_result s net = Returned (succeeded (Some (map point_of (rev recent)))).
Proof.
  intros Hnet Hnote Hm Hr.
  unfold history_result, getHistoricalData, try_catch, bind, fetch_json, lift, ret.
  cbn [fst]. rewrite Hnet. kcbn. cbn [get]. rewrite Hnote, Hm. kcbn.
  cbn [truthy_json negb object_entries entries].
  rewrite (omap_entries _ _ (Forall2_rev _ _ _ Hr)). reflexivity.
Qed.

(** [substring(0, n)] gives the first [n] characters. *)
Lemma substring0_first_characters (n : nat) (s : string) :
  first_characters n s (substring0 n s).
Proof.
  unfold first_characters, substring0. revert s.
  induction n as [|n IH]; intros s.
  - destruct s; cbn; split; try reflexivity; eexists; reflexivity.
  - destruct s as [|c s]; cbn [String.substring String.length Nat.min].
    + split; [now exists ""|reflexivity].
    + destruct (IH s) as [[rest E] L]. split.
      * exists rest. cbn [append]. now rewrite <- E.
      * cbn [String.length]. now rewrite L.
Qed.

Lemma history_point_date (entry : string * json) (p : Point) :
  history_point entry = Returned p -> date p = substring0 7 (fst entry).
Proof.
  destruct entry as [d values]. unfold history_point, parseFloat.
  destruct (get (Some values) "4. close") as [close|]; cbn [obind];
    [|discriminate].
  destruct (ToString close) as [printed|]; cbn [obind]; [|discriminate].
  now intros [= <-].
Qed.

Lemma history_point_projection (entry : string * json) (p : Point) :
  history_point entry = Returned p -> projection entry p.
Proof.
  intros H. unfold projection. rewrite (history_point_date _ _ H).
  split; [apply substring0_first_characters|].
  destruct entry as [d values]. unfold history_point, parseFloat in H.
  destruct (get (Some values) "4. close") as [close|] eqn:G; cbn [obind] in H;
    [|discriminate].
  destruct (ToString close) as [printed|] eqn:T; cbn [obind] in H;
    [|discriminate].
  injection H as <-.
  exists close, printed. repeat split; assumption.
Qed.

Lemma omap_Forall2 {A B : Type} (f : A -> outcome B) (l : list A) (r : list B) :
  omap f l = Returned r -> Forall2 (fun a b => f a = Returned b) l r.
Proof.
  revert r. induction l as [|a l IH]; cbn [omap]; intros r.
  - intros [= <-]. constructor.
  - destruct (f a) as [b|] eqn:Fa; cbn [obind]; [|discriminate].
    destruct (omap f l) as [bs|]; cbn [obind]; [|discriminate].
    intros [= <-]. constructor; [exact Fa|now apply IH].
Qed.

(** A history fetch that succeeds has made its points of the first twelve
    entries of the series, last first. *)
Lemma history_success (s : string) (net : network) (h : reply (list Point))
      (document : json) (monthly : option json) (es : list (string * json)) :
  history_result s net = Returned h -> truthy_error h = None ->
  net (history_url s) = Json document ->
  get (Some document) "Monthly Time Series" = Returned monthly ->
  object_entries monthly = Returned es ->
  exists pts,
    data h = Some pts /\
    omap history_point (rev (firstn 12 es)) = Returned pts.
Proof.
  unfold history_result, getHistoricalData, try_catch, bind, fetch_json, lift, ret.
  cbn [fst]. intros Hh Th Hnet Hm He. rewrite Hnet in Hh. revert Hh. kcbn.
  destruct (get (Some document) "Note") as [note|]; kcbn;
    [|intros [= <-]; discriminate].
  destruct (truthy_json note); kcbn; [intros [= <-]; discriminate|].
  rewrite Hm. kcbn.
  destruct (truthy_json monthly); kcbn; [|intros [= <-]; discriminate].
  rewrite He. kcbn.
  destruct (omap history_point (rev (firstn 12 es))) as [pts|]; kcbn;
    [|intros [= <-]; discriminate].
  intros [= <-]. exists pts. split; reflexivity.
Qed.

(** C3, as stated, fails: both fetches can succeed and the response carry
    no chart.  The summary is formatted after the two fetches and before
    the chart is attached; a quote whose price cannot be converted to a
    string makes [formatStockResponse] throw, and [getBotResponse] throws
    with it. *)
Lemma unformatted_quote_counterexample :
  stock_command "stock aapl" = true /\
  quote_result (symbol_of "stock aapl") unprintable_network =
    Returned (succeeded
                (Some (JObj [("05. price", JObj [("toString", JStr "")])]))) /\
  history_result (symbol_of "stock aapl") unprintable_network =
    Returned (succeeded (Some (map point_of (rev (firstn 12 sample_closes))))) /\
  fst (getBotResponse "stock aapl" unprintable_network []) = Thrown.
Proof. repeat split; vm_compute; reflexivity. Qed.

(** C3, amended. When the quote fetch succeeds, its summary can be
    formatted, and the history fetch succeeds, the response carries a
    chart for the upper-case symbol whose series is made of the first
    twelve entries of the monthly mapping (the most recent ones, the
    mapping being newest first; all of them when there are fewer), in
    reverse order, each entry turned into the first seven characters of
    its date and its closing value parsed as a float. *)
Theorem chart_series_recent_reversed
        (m : string) (net : network) (log : list string)
        (q : reply json) (response : string) (h : reply (list Point))
        (document : json) (monthly : option json)
        (es : list (string * json)) :
  stock_command m = true ->
  quote_result (symbol_of m) net = Returned q ->
  truthy_error q = None ->
  formatStockResponse (data q) (symbol_of m) = Returned response ->
  history_result (symbol_of m) net = Returned h ->
  truthy_error h = None ->
  net (history_url (symbol_of m)) = Json document ->
  get (Some document) "Monthly Time Series" = Returned monthly ->
  object_entries monthly = Returned es ->
  exists pts,
    getBotResponse m net log =
    (Returned
       {| text := VString response;
          chartData :=
            Some {| symbol := toUpperCase (symbol_of m);
                    series := Some pts |} |},
     (log ++ [quote_url (symbol_of m); history_url (symbol_of m)])%list)
    /\ Forall2 projection (rev (firstn 12 es)) pts
    /\ List.length pts = Nat.min 12 (List.length es).
Proof.
  intros Hs Hq Tq Hf Hh Th Hnet Hm He.
  destruct (history_success _ _ _ _ _ _ Hh Th Hnet Hm He) as [pts [Hd Ho]].
  exists pts. split; [|split].
  - rewrite (getBotResponse_stock m net log q h Hs Hq Hh), Tq, Hf, Th, Hd.
    reflexivity.
  - apply omap_Forall2 in Ho.
    eapply Forall2_impl; [|exact Ho].
    intros e p. apply history_point_projection.
  - apply omap_Forall2, Forall2_length in Ho.
    rewrite <- Ho, length_rev. apply length_firstn.
Qed.

Lemma chart_series_recent_reversed_witness :
  exists pts,
    getBotResponse "stock AAPL" sample_network [] =
    (Returned
       {| text := VString sample_summary;
          chartData :=
            Some {| symbol := toUpperCase (symbol_of "stock AAPL");
                    series := Some pts |} |},
     ([] ++ [quote_url (symbol_of "stock AAPL");
             history_url (symbol_of "stock AAPL")])%list)
    /\ Forall2 projection
         (rev (firstn 12
                 (map (fun dc => (fst dc, JObj [("1. open", JStr "170.0000");
                                                ("4. close", JStr (snd dc))]))
                      sample_closes))) pts
    /\ List.length pts =
       Nat.min 12
         (List.length
            (map (fun dc => (fst dc, JObj [("1. open", JStr "170.0000");
                                           ("4. close", JStr (snd dc))]))
                 sample_closes)).
Proof.
  apply (chart_series_recent_reversed
           "stock AAPL" sample_network []
           (succeeded (assoc "Global Quote" [("Global Quote",
              JObj [("01. symbol", JStr "AAPL");
                    ("03. high", JStr "151.0000");
                    ("04. low", JStr "148.0000");
                    ("05. price", JStr "150.0000");
                    ("09. change", JStr "2.5000");
                    ("10. change percent", JStr "1.69%")])]))
           sample_summary
           (succeeded (Some (map point_of (rev (firstn 12 sample_closes)))))
           sample_history
           (Some (JObj (map (fun dc => (fst dc, JObj [("1. open", JStr "170.0000");
                                                      ("4. close", JStr (snd dc))]))
                            sample_closes)))).
  - vm_compute. reflexivity.
  - vm_compute. reflexivity.
  - reflexivity.
  - vm_compute. reflexivity.
  - vm_compute. reflexivity.
  - reflexivity.
  - vm_compute. reflexivity.
  - reflexivity.
  - reflexivity.
Defined.

(** On the sample network the chart runs from April 2023 to March 2024:
    the thirteenth, oldest entry is left out and the rest is turned
    round. *)
Lemma sample_chart_periods :
  option_map (fun chart => option_map (map date) (series chart))
             (match fst (getBotResponse "stock AAPL" sample_network []) with
              | Returned r => chartData r
              | Thrown => None
              end) =
  Some (Some ["2023-04"; "2023-05"; "2023-06"; "2023-07"; "2023-08"; "2023-09";
              "2023-10"; "2023-11"; "2023-12"; "2024-01"; "2024-02"; "2024-03"]).
Proof. vm_compute. reflexivity. Qed.

(** C4, as stated, fails: a marker field that is present but empty is not
    taken for the rate-limit signal, and the quote is answered. *)
Lemma rate_limit_counterexample :
  assoc "Note" [("Note", JStr ""); ("Global Quote",
     JObj [("03. high", JStr "151.0000"); ("04. low", JStr "148.0000");
           ("05. price", JStr "150.0000"); ("09. change", JStr "2.5000");
           ("10. change percent", JStr "1.69%")])] = Some (JStr "")
  /\
  fst (getBotResponse "stock tsla"
         (always (JObj [("Note", JStr ""); ("Global Quote",
            JObj [("03. high", JStr "151.0000"); ("04. low", JStr "148.0000");
                  ("05. price", JStr "150.0000"); ("09. change", JStr "2.5000");
                  ("10. change percent", JStr "1.69%")])])) [])
  <> Returned {| text := VString rate_limit_text; chartData := None |}.
Proof.
  split; [reflexivity|]. vm_compute. intros H. discriminate H.
Qed.

(** C4, amended. If the quote response is an object whose rate-limit marker
    field ("Note") holds a truthy value, such as the non-empty note the
    service sends, a stock command is answered with the rate-limit message
    and no chart, whatever the history fetch returns. *)
Theorem rate_limited_quote (m : string) (net : network) (log : list string)
        (props : list (string * json)) :
  stock_command m = true ->
  net (quote_url (symbol_of m)) = Json (JObj props) ->
  truthy_json (assoc "Note" props) = true ->
  getBotResponse m net log =
  (Returned {| text := VString rate_limit_text; chartData := None |},
   (log ++ [quote_url (symbol_of m); history_url (symbol_of m)])%list).
Proof.
  intros Hs Hnet Hnote.
  destruct (getHistoricalData_returns (symbol_of m) net) as [h Hh].
  rewrite (getBotResponse_stock m net log _ h Hs
             (quote_rate_limited _ _ _ Hnet Hnote) Hh).
  reflexivity.
Qed.

Lemma rate_limited_quote_witness :
  getBotResponse "stock tsla"
    (always (JObj [("Note", JStr "Thank you for using Alpha Vantage!")])) [] =
  (Returned {| text := VString rate_limit_text; chartData := None |},
   ([] ++ [quote_url (symbol_of "stock tsla");
           history_url (symbol_of "stock tsla")])%list).
Proof.
  apply (rate_limited_quote "stock tsla"
           (always (JObj [("Note", JStr "Thank you for using Alpha Vantage!")]))
           [] [("Note", JStr "Thank you for using Alpha Vantage!")]);
    reflexivity.
Defined.

(** C5, on the code. For the command "stock zzzz" in any letter case, with
    a quote response whose quote object is absent or empty, the answer has
    no chart and names the symbol in lower case, as it was sent to the
    service: the upper-case form "ZZZZ" does not occur in it. *)
Theorem not_found_names_lowercase_symbol
        (m : string) (net : network) (log : list string)
        (props : list (string * json)) :
  trim (toLowerCase m) = "stock zzzz" ->
  net (quote_url "zzzz") = Json (JObj props) ->
  truthy_json (assoc "Note" props) = false ->
  assoc "Global Quote" props = None \/
  assoc "Global Quote" props = Some (JObj []) ->
  getBotResponse m net log =
  (Returned {| text := VString "Could not find stock data for symbol: zzzz";
               chartData := None |},
   (log ++ [quote_url "zzzz"; history_url "zzzz"])%list)
  /\ includes "Could not find stock data for symbol: zzzz" "ZZZZ" = false.
Proof.
  intros Ht Hnet Hnote Hq. split; [|vm_compute; reflexivity].
  assert (Hsym : symbol_of m = "zzzz").
  { unfold symbol_of, parseCommand. cbn [args]. rewrite Ht. reflexivity. }
  assert (Hs : stock_command m = true).
  { unfold stock_command, parseCommand. cbn [command args]. rewrite Ht.
    reflexivity. }
  destruct (getHistoricalData_returns (symbol_of m) net) as [h Hh].
  rewrite <- Hsym in Hnet.
  rewrite (getBotResponse_stock m net log _ h Hs
             (quote_not_found _ _ _ Hnet Hnote Hq) Hh), Hsym.
  reflexivity.
Qed.

Lemma not_found_names_lowercase_symbol_witness :
  getBotResponse "Stock ZZZZ" (always (JObj [("Global Quote", JObj [])])) [] =
  (Returned {| text := VString "Could not find stock data for symbol: zzzz";
               chartData := None |},
   ([] ++ [quote_url "zzzz"; history_url "zzzz"])%list)
  /\ includes "Could not find stock data for symbol: zzzz" "ZZZZ" = false.
Proof.
  apply (not_found_names_lowercase_symbol
           "Stock ZZZZ" (always (JObj [("Global Quote", JObj [])])) []
           [("Global Quote", JObj [])]).
  - vm_compute. reflexivity.
  - reflexivity.
  - reflexivity.
  - right. reflexivity.
Defined.

(** C6, as stated, fails: with the quote fetched and the history failing,
    the answer can still be an error.  A quote whose price cannot be
    converted to a string makes [formatStockResponse] throw, so
    [getBotResponse] throws and the user is shown the catch-all error
    text, not a summary. *)
Lemma unformatted_summary_counterexample :
  stock_command "stock aapl" = true /\
  quote_result (symbol_of "stock aapl") (always unprintable_quote) =
    Returned (succeeded
                (Some (JObj [("05. price", JObj [("toString", JStr "")])]))) /\
  history_result (symbol_of "stock aapl") (always unprintable_quote) =
    Returned (failed "No historical data found") /\
  fst (getBotResponse "stock aapl" (always unprintable_quote) []) = Thrown /\
  map message_text
      (messages (fst (handleSubmit
                        {| messages := []; input := "stock aapl";
                           isLoading := false |}
                        (always unprintable_quote) []))) =
  [VString "stock aapl";
   VString "I'm sorry, I encountered an error. Please try again later."].
Proof. repeat split; vm_compute; reflexivity. Qed.

(** C6, amended. If the quote fetch succeeds and its summary can be
    formatted, while the history fetch fails in any of the ways it can, a
    stock command is answered with the quote summary alone: the summary
    as text, no chart, and no error text. *)
Theorem history_failure_degrades
        (m : string) (net : network) (log : list string)
        (q : reply json) (response : string) :
  stock_command m = true ->
  quote_result (symbol_of m) net = Returned q ->
  truthy_error q = None ->
  formatStockResponse (data q) (symbol_of m) = Returned response ->
  history_failure (net (history_url (symbol_of m))) ->
  getBotResponse m net log =
  (Returned {| text := VString response; chartData := None |},
   (log ++ [quote_url (symbol_of m); history_url (symbol_of m)])%list).
Proof.
  intros Hs Hq Tq Hf Hh.
  destruct (history_failure_reply _ _ Hh) as [h [msg [Hr Th]]].
  rewrite (getBotResponse_stock m net log q h Hs Hq Hr), Tq, Hf, Th.
  reflexivity.
Qed.

Lemma history_failure_degrades_witness :
  getBotResponse "stock aapl" quote_only_network [] =
  (Returned {| text := VString sample_summary; chartData := None |},
   ([] ++ [quote_url (symbol_of "stock aapl");
           history_url (symbol_of "stock aapl")])%list).
Proof.
  apply (history_failure_degrades
           "stock aapl" quote_only_network []
           (succeeded (assoc "Global Quote" [("Global Quote",
              JObj [("01. symbol", JStr "AAPL");
                    ("03. high", JStr "151.0000");
                    ("04. low", JStr "148.0000");
                    ("05. price", JStr "150.0000");
                    ("09. change", JStr "2.5000");
                    ("10. change percent", JStr "1.69%")])]))
           sample_summary).
  - vm_compute. reflexivity.
  - vm_compute. reflexivity.
  - reflexivity.
  - vm_compute. reflexivity.
  - vm_compute. constructor.
Defined.

(** ** The catch-all of [handleSubmit] *)

Lemma handleSubmit_ignored (st : AppState) (net : network) (log : list string) :
  truthy (trim (input st)) = false \/ isLoading st = true ->
  handleSubmit st net log = (st, log).
Proof.
  unfold handleSubmit. intros [H|H]; rewrite H; [reflexivity|].
  now rewrite orb_true_r.
Qed.

Lemma handleSubmit_answers (st : AppState) (net : network) (log : list string) :
  truthy (trim (input st)) = true -> isLoading st = false ->
  exists bot,
    messages (fst (handleSubmit st net log)) =
      (messages st ++
       [{| message_text := VString (trim (input st)); isBot := false;
           message_chartData := None |}; bot])%list /\
    isBot bot = true /\
    isLoading (fst (handleSubmit st net log)) = false /\
    match fst (getBotResponse (trim (input st)) net log) with
    | Returned r =>
        message_text bot = text r /\ message_chartData bot = chartData r
    | Thrown =>
        message_text bot = VString catch_all_text /\ message_chartData bot = None
    end.
Proof.
  intros Hi Hl. unfold handleSubmit. rewrite Hi, Hl. cbn [negb orb].
  destruct (getBotResponse (trim (input st)) net log) as [[r|] log'];
    cbn [fst messages isLoading].
  - eexists. rewrite <- app_assoc. cbn [app]. repeat split.
  - eexists. rewrite <- app_assoc. cbn [app]. repeat split.
Qed.

(** The catch-all is reached: a quote field that cannot be converted to a
    string makes [getBotResponse] throw, and the user is shown the generic
    text. *)
Lemma catch_all_reached :
  fst (getBotResponse "stock aapl" (always unprintable_quote) []) = Thrown /\
  map message_text
      (messages (fst (handleSubmit
                        {| messages := []; input := "stock aapl";
                           isLoading := false |}
                        (always unprintable_quote) []))) =
  [VString "stock aapl"; VString catch_all_text].
Proof. split; vm_compute; reflexivity. Qed.


(** ** Rounding to binary64 *)

Section Rounding.

Open Scope Z_scope.

Lemma digits2_pos_lower (m : positive) :
  2 ^ (Zpos (digits2_pos m) - 1) <= Zpos m.
Proof.
  induction m as [m IH|m IH|]; cbn [digits2_pos].
  - rewrite Pos2Z.inj_succ.
    replace (Z.succ (Zpos (digits2_pos m)) - 1) with (Z.succ (Zpos (digits2_pos m) - 1)) by lia.
    rewrite Z.pow_succ_r by lia. lia.
  - rewrite Pos2Z.inj_succ.
    replace (Z.succ (Zpos (digits2_pos m)) - 1) with (Z.succ (Zpos (digits2_pos m) - 1)) by lia.
    rewrite Z.pow_succ_r by lia. lia.
  - reflexivity.
Qed.

Lemma shr_1_m (mrs : shr_record) :
  0 <= shr_m mrs -> shr_m (shr_1 mrs) = shr_m mrs / 2.
Proof.
  destruct mrs as [m r s]. cbn [shr_m shr_1]. intros H.
  destruct m as [|[p|p|]|p]; cbn [shr_m]; try reflexivity; try lia.
  - apply Z.div_unique with 1; lia.
  - apply Z.div_unique with 0; lia.
Qed.

Lemma pow2_xO (p : positive) : 2 ^ Zpos p~0 = 2 ^ Zpos p * 2 ^ Zpos p.
Proof. rewrite <- Z.pow_add_r by lia. f_equal. lia. Qed.

Lemma pow2_xI (p : positive) : 2 ^ Zpos p~1 = 2 * (2 ^ Zpos p * 2 ^ Zpos p).
Proof.
  rewrite <- Z.pow_add_r, <- Z.pow_succ_r by lia. f_equal. lia.
Qed.

Lemma iter_shr_1_m (p : positive) (mrs : shr_record) :
  0 <= shr_m mrs ->
  shr_m (iter_pos shr_1 p mrs) = shr_m mrs / 2 ^ Zpos p.
Proof.
  revert mrs. induction p as [p IH|p IH|]; intros mrs H; cbn [iter_pos].
  - assert (Hp : 0 < 2 ^ Zpos p) by (apply Z.pow_pos_nonneg; lia).
    assert (H1 : 0 <= shr_m (shr_1 mrs)).
    { rewrite shr_1_m by assumption. apply Z.div_pos; lia. }
    assert (H2 : 0 <= shr_m (iter_pos shr_1 p (shr_1 mrs))).
    { rewrite IH by assumption. apply Z.div_pos; assumption. }
    rewrite IH, IH, shr_1_m by assumption.
    rewrite !Z.div_div by lia. now rewrite pow2_xI.
  - assert (Hp : 0 < 2 ^ Zpos p) by (apply Z.pow_pos_nonneg; lia).
    assert (H2 : 0 <= shr_m (iter_pos shr_1 p mrs)).
    { rewrite IH by assumption. apply Z.div_pos; assumption. }
    rewrite IH, IH by assumption.
    rewrite !Z.div_div by lia. now rewrite pow2_xO.
  - now apply shr_1_m.
Qed.

(** Shifting a mantissa of [d] binary digits to the exponent [fexp] asks
    for leaves at least one digit, unless the value is below half the
    smallest subnormal. *)
Lemma shr_fexp_positive (m e : Z) (l : location) :
  0 < m -> -1073 <= Zdigits2 m + e ->
  0 < shr_m (fst (shr_fexp prec emax m e l)) /\
  -1074 <= snd (shr_fexp prec emax m e l).
Proof.
  intros Hm Hd. unfold shr_fexp, shr.
  destruct m as [|p|p]; try lia. cbn [Zdigits2] in *.
  pose proof (digits2_pos_lower p) as Hp.
  set (d := Zpos (digits2_pos p)) in *.
  assert (Hd1 : 1 <= d) by (subst d; lia).
  unfold fexp, emin, prec, emax.
  set (n := Z.max (d + e - 53) (3 - 1024 - 53) - e).
  assert (Hn : n <= d - 1) by (subst n; lia).
  assert (He : -1074 <= e + Z.max 0 n) by (subst n; lia).
  assert (Hrec : shr_m (shr_record_of_loc (Zpos p) l) = Zpos p).
  { destruct l as [|[]]; reflexivity. }
  destruct n as [|q|q] eqn:En; cbn [fst snd].
  - rewrite Hrec. lia.
  - rewrite iter_shr_1_m by (rewrite Hrec; lia). rewrite Hrec.
    split; [|lia].
    apply Z.div_str_pos. split; [apply Z.pow_pos_nonneg; lia|].
    apply Z.le_trans with (2 ^ (d - 1)); [|exact Hp].
    apply Z.pow_le_mono_r; lia.
  - rewrite Hrec. lia.
Qed.

Lemma round_nearest_even_positive (m : Z) (l : location) :
  0 < m -> 0 < round_nearest_even m l.
Proof.
  intros H. destruct l as [|[]]; cbn [round_nearest_even]; try lia.
  destruct (Z.even m); lia.
Qed.

Lemma Zdigits2_positive (m : Z) : 0 < m -> 1 <= Zdigits2 m.
Proof. destruct m; cbn; lia. Qed.

(** Rounding a positive mantissa that is not below the subnormal range
    gives a number of the same sign that is not zero. *)
Lemma binary_round_aux_sign (sx : bool) (mx ex : Z) (lx : location) :
  0 < mx -> -1073 <= Zdigits2 mx + ex ->
  (exists m e, binary_round_aux prec emax sx mx ex lx = S754_finite sx m e) \/
  binary_round_aux prec emax sx mx ex lx = S754_infinity sx.
Proof.
  intros Hm Hd. unfold binary_round_aux.
  destruct (shr_fexp_positive mx ex lx Hm Hd) as [H1 E1].
  destruct (shr_fexp prec emax mx ex lx) as [mrs' e']. cbn [fst snd] in H1, E1.
  pose proof (round_nearest_even_positive _ (loc_of_shr_record mrs') H1) as H2.
  set (m2 := round_nearest_even (shr_m mrs') (loc_of_shr_record mrs')) in *.
  assert (Hd2 : -1073 <= Zdigits2 m2 + e').
  { pose proof (Zdigits2_positive m2 H2). lia. }
  destruct (shr_fexp_positive m2 e' loc_Exact H2 Hd2) as [H3 _].
  destruct (shr_fexp prec emax m2 e' loc_Exact) as [mrs'' e'']. cbn [fst] in H3.
  destruct (shr_m mrs'') as [|m|m]; try lia.
  destruct (e'' <=? emax - prec); [left; eauto|now right].
Qed.

End Rounding.
Section Hundredths.
Open Scope Z_scope.

Lemma round_hundredths_sign (neg : bool) (p : positive) :
  (exists m e, round_decimal neg (Npos p) (-2) = S754_finite neg m e) \/
  round_decimal neg (Npos p) (-2) = S754_infinity neg.
Proof.
  unfold round_decimal. cbn [Z.leb Z.compare Z.opp].
  change (10 ^ 2) with 100. unfold SFdiv_core_binary.
  change (Zdigits2 100) with 7.
  pose proof (digits2_pos_lower p) as Hp.
  cbn [Zdigits2]. set (d := Zpos (digits2_pos p)) in *.
  assert (Hd : 1 <= d) by (subst d; lia).
  unfold fexp, emin, prec, emax.
  set (e' := Z.min (Z.max (d + 0 - (7 + 0) - 53) (3 - 1024 - 53)) (0 - 0)).
  assert (He : -59 <= e' <= 0) by (subst e'; lia).
  set (m' := match 0 - 0 - e' with
             | 0 => Zpos p
             | Zpos _ => Z.shiftl (Zpos p) (0 - 0 - e')
             | Zneg _ => 0
             end).
  assert (Hm : 2 ^ 59 <= m').
  { subst m'. destruct (0 - 0 - e') as [|s|s] eqn:Es; [| |lia].
    - assert (60 <= d) by (subst e'; lia).
      apply Z.le_trans with (2 ^ (d - 1)); [|exact Hp].
      apply Z.pow_le_mono_r; lia.
    - rewrite Z.shiftl_mul_pow2 by lia.
      assert (Hs : Zpos s = 60 - d) by (subst e'; lia).
      rewrite Hs.
      apply Z.le_trans with (2 ^ (d - 1) * 2 ^ (60 - d)).
      + rewrite <- Z.pow_add_r by lia. apply Z.pow_le_mono_r; lia.
      + apply Z.mul_le_mono_nonneg_r; [apply Z.pow_nonneg; lia|exact Hp]. }
  assert (Hq : 0 < m' / 100).
  { apply Z.div_str_pos. change (2 ^ 59) with 576460752303423488 in Hm. lia. }
  unfold Z.div in Hq. destruct (Z.div_eucl m' 100) as [q r].
  apply binary_round_aux_sign; [exact Hq|].
  pose proof (Zdigits2_positive q Hq). lia.
Qed.

Lemma ge_zero_signed (neg : bool) (x : number) :
  (exists m e, x = S754_finite neg m e) \/ x = S754_infinity neg ->
  ge_zero x = negb neg.
Proof. intros [[m [e ->]]| ->]; destruct neg; reflexivity. Qed.

(** The sign test on [n] hundredths read as a Number: only a negative,
    non-zero count is below zero. *)
Lemma ge_zero_hundredths (neg : bool) (n : N) :
  ge_zero (round_decimal neg n (-2)) = negb neg || N.eqb n 0.
Proof.
  destruct n as [|p].
  - destruct neg; reflexivity.
  - rewrite (ge_zero_signed neg _ (round_hundredths_sign neg p)).
    cbn [N.eqb]. now rewrite orb_false_r.
Qed.

End Hundredths.

(** ** Decimal digits *)

Lemma all_digits_uint (d : Decimal.uint) :
  all_digits (NilEmpty.string_of_uint d) = true.
Proof. induction d; cbn; assumption || reflexivity. Qed.

Lemma all_digits_decimal (n : N) : all_digits (decimal_digits n) = true.
Proof. apply all_digits_uint. Qed.

Lemma decimal_digits_nonempty (n : N) : decimal_digits n <> "".
Proof.
  unfold decimal_digits. destruct n as [|p]; [discriminate|].
  cbn [N.to_uint]. pose proof (DecimalPos.Unsigned.to_uint_nonnil p) as H.
  destruct (Pos.to_uint p); [contradiction|discriminate..].
Qed.

Lemma all_digits_app (a b : string) :
  all_digits (a ++ b) = all_digits a && all_digits b.
Proof.
  induction a as [|c a IH]; [reflexivity|].
  cbn. now rewrite IH, andb_assoc.
Qed.

Lemma all_digits_zeros (k : nat) : all_digits (zeros k) = true.
Proof. induction k; [reflexivity|exact IHk]. Qed.

Lemma zeros_uint (k : nat) (d : Decimal.uint) :
  zeros k ++ NilEmpty.string_of_uint d =
  NilEmpty.string_of_uint (Nat.iter k Decimal.D0 d).
Proof. induction k as [|k IH]; [reflexivity|]. cbn. now rewrite IH. Qed.

Lemma of_uint_zeros (k : nat) (d : Decimal.uint) :
  N.of_uint (Nat.iter k Decimal.D0 d) = N.of_uint d.
Proof. induction k as [|k IH]; [reflexivity|exact IH]. Qed.

(** Reading back the digits of a number, zeros in front or not. *)
Lemma digits_value_decimal (k : nat) (n : N) :
  digits_value (zeros k ++ decimal_digits n) = n.
Proof.
  unfold digits_value, decimal_digits.
  rewrite zeros_uint, NilEmpty.usu, of_uint_zeros.
  apply DecimalN.Unsigned.of_to.
Qed.

Lemma length_append (a b : string) :
  String.length (a ++ b) = (String.length a + String.length b)%nat.
Proof. induction a as [|c a IH]; [reflexivity|]. cbn. now rewrite IH. Qed.

Lemma length_zeros (k : nat) : String.length (zeros k) = k.
Proof. induction k as [|k IH]; [reflexivity|]. cbn. now rewrite IH. Qed.

(** A string of at least three characters is a non-empty string followed
    by two characters. *)
Lemma last_two (s : string) :
  (3 <= String.length s)%nat ->
  exists a d1 d2,
    s = a ++ String d1 (String d2 "") /\ a <> "" /\
    String.length a = (String.length s - 2)%nat.
Proof.
  induction s as [|c s IH]; cbn; [lia|].
  intros H. destruct s as [|c1 [|c2 [|c3 s]]]; cbn in H; try lia.
  - exists (String c ""), c1, c2. repeat split. discriminate.
  - destruct IH as [a [d1 [d2 [E [_ L]]]]]; [cbn; lia|].
    exists (String c a), d1, d2. cbn [append]. rewrite <- E.
    repeat split; [discriminate|]. cbn [String.length] in *. lia.
Qed.

Lemma substring_prefix (a b : string) :
  String.substring 0 (String.length a) (a ++ b) = a.
Proof.
  induction a as [|c a IH]; cbn.
  - destruct b; reflexivity.
  - now rewrite IH.
Qed.

Lemma substring_suffix (a b : string) :
  String.substring (String.length a) (String.length b) (a ++ b) = b.
Proof.
  induction a as [|c a IH]; cbn; [|exact IH].
  induction b as [|d b IHb]; cbn; [reflexivity|now rewrite IHb].
Qed.

(** The fixed notation of [n] hundredths: digits, a point and two digits,
    which read together are [n] again. *)
Lemma fixed_digits_shape (n : N) :
  exists a d1 d2,
    fixed_digits 2 n = a ++ "." ++ String d1 (String d2 "") /\
    head_digit a = true /\ all_digits a = true /\
    is_digit d1 = true /\ is_digit d2 = true /\
    digits_value (a ++ String d1 (String d2 "")) = n.
Proof.
  unfold fixed_digits.
  set (m := zeros (3 - String.length (decimal_digits n)) ++ decimal_digits n).
  assert (Hall : all_digits m = true).
  { subst m. now rewrite all_digits_app, all_digits_zeros, all_digits_decimal. }
  assert (Hval : digits_value m = n) by apply digits_value_decimal.
  assert (Hlen : (3 <= String.length m)%nat).
  { subst m. rewrite length_append, length_zeros. lia. }
  clearbody m. cbv zeta.
  destruct (last_two m Hlen) as [a [d1 [d2 [E [Ha La]]]]].
  exists a, d1, d2. subst m. rewrite all_digits_app in Hall.
  apply andb_true_iff in Hall as [Hda Hdd]. cbn in Hdd.
  apply andb_true_iff in Hdd as [H1 H2]. rewrite andb_true_r in H2.
  repeat split; try assumption.
  - rewrite <- La. rewrite substring_prefix.
    change 2%nat with (String.length (String d1 (String d2 ""))).
    now rewrite substring_suffix.
  - destruct a as [|c a]; [contradiction|]. cbn in Hda |- *.
    now apply andb_true_iff in Hda as [Hc _].
Qed.

(** ** Reading a fixed notation back *)

Lemma span_digits_app (a rest : string) :
  all_digits a = true -> head_digit rest = false ->
  span_digits (a ++ rest) = (a, rest).
Proof.
  intros Ha Hr. induction a as [|c a IH].
  - destruct rest as [|d r]; [reflexivity|].
    cbn in Hr |- *. now rewrite Hr.
  - cbn in Ha. apply andb_true_iff in Ha as [Hc Ha].
    cbn. now rewrite Hc, (IH Ha).
Qed.

Lemma digit_cases (c : ascii) :
  is_digit c = true ->
  c = "0"%char \/ c = "1"%char \/ c = "2"%char \/ c = "3"%char \/
  c = "4"%char \/ c = "5"%char \/ c = "6"%char \/ c = "7"%char \/
  c = "8"%char \/ c = "9"%char.
Proof.
  destruct c as [[] [] [] [] [] [] [] []]; cbn; intros H;
    try discriminate H; tauto.
Qed.

Lemma parseFloat_digit (c : ascii) (r : string) :
  is_digit c = true ->
  parseFloat_string (String c r) = unsigned_literal false (String c r).
Proof.
  intros H.
  destruct (digit_cases c H) as [->|[->|[->|[->|[->|[->|[->|[->|[->| ->]]]]]]]]];
    reflexivity.
Qed.

Lemma not_infinity (c : ascii) (r : string) :
  is_digit c = true -> String.prefix "Infinity" (String c r) = false.
Proof.
  intros H.
  destruct (digit_cases c H) as [->|[->|[->|[->|[->|[->|[->|[->|[->| ->]]]]]]]]];
    reflexivity.
Qed.

(** Digits, a point and two digits are read as that many hundredths. *)
Lemma unsigned_literal_fixed (neg : bool) (a : string) (d1 d2 : ascii) :
  head_digit a = true -> all_digits a = true ->
  is_digit d1 = true -> is_digit d2 = true ->
  unsigned_literal neg (a ++ "." ++ String d1 (String d2 "")) =
  round_decimal neg (digits_value (a ++ String d1 (String d2 ""))) (-2).
Proof.
  intros Hh Ha H1 H2. unfold unsigned_literal.
  destruct a as [|c a]; [discriminate|]. cbn in Hh.
  change (String c a ++ "." ++ String d1 (String d2 ""))
    with (String c (a ++ "." ++ String d1 (String d2 ""))) at 1.
  rewrite (not_infinity c _ Hh).
  rewrite span_digits_app by (assumption || reflexivity).
  cbn [append]. cbv beta iota zeta. cbn [span_digits]. rewrite H1, H2.
  reflexivity.
Qed.

Lemma parseFloat_fixed (neg : bool) (a : string) (d1 d2 : ascii) :
  head_digit a = true -> all_digits a = true ->
  is_digit d1 = true -> is_digit d2 = true ->
  parseFloat_string
    ((if neg then "-" else "") ++ a ++ "." ++ String d1 (String d2 "")) =
  round_decimal neg (digits_value (a ++ String d1 (String d2 ""))) (-2).
Proof.
  intros Hh Ha H1 H2.
  rewrite <- (unsigned_literal_fixed neg a d1 d2 Hh Ha H1 H2).
  destruct neg; [reflexivity|].
  destruct a as [|c a]; [discriminate|].
  apply parseFloat_digit. exact Hh.
Qed.

Lemma two_decimals_fixed (neg : bool) (a : string) (d1 d2 : ascii) :
  head_digit a = true -> all_digits a = true ->
  is_digit d1 = true -> is_digit d2 = true ->
  has_two_decimals
    ((if neg then "-" else "") ++ a ++ "." ++ String d1 (String d2 "")) = true.
Proof.
  intros Hh Ha H1 H2.
  assert (Hbody : has_two_decimals (a ++ "." ++ String d1 (String d2 "")) = true).
  { unfold has_two_decimals.
    destruct a as [|c a]; [discriminate|]. cbn in Hh.
    assert (E : match String c a ++ "." ++ String d1 (String d2 "") with
                | String "-" r => r
                | _ => String c a ++ "." ++ String d1 (String d2 "")
                end = String c a ++ "." ++ String d1 (String d2 "")).
    { destruct (digit_cases c Hh)
        as [->|[->|[->|[->|[->|[->|[->|[->|[->| ->]]]]]]]]]; reflexivity. }
    rewrite E, span_digits_app by (assumption || reflexivity).
    cbn [append]. now rewrite H1, H2. }
  destruct neg; [|exact Hbody].
  unfold has_two_decimals in *. cbn [append].
  destruct a as [|c a]; [discriminate|]. cbn in Hh.
  destruct (digit_cases c Hh)
    as [->|[->|[->|[->|[->|[->|[->|[->|[->| ->]]]]]]]]]; exact Hbody.
Qed.

Section Direction.
Open Scope Z_scope.

Lemma scale_half_up_nonneg (m e : Z) : 0 <= m -> 0 <= scale_half_up m e.
Proof.
  intros H. unfold scale_half_up. destruct (0 <=? e) eqn:E.
  - apply Z.mul_nonneg_nonneg; [assumption|]. apply Z.pow_nonneg. lia.
  - apply Z.div_pos.
    + assert (0 <= 2 ^ (- e)) by (apply Z.pow_nonneg; lia). lia.
    + apply Z.pow_pos_nonneg; lia.
Qed.

(** The two-decimal rendering of a finite value in range. *)
Lemma toFixed_finite (s : bool) (m : positive) (e : Z) :
  in_fixed_range (S754_finite s m e) = true ->
  exists n a d1 d2,
    n = Z.to_N (scale_half_up (Zpos m * 100) e) /\
    toFixed 2 (S754_finite s m e) =
      (if s then "-" else "") ++ a ++ "." ++ String d1 (String d2 "") /\
    head_digit a = true /\ all_digits a = true /\
    is_digit d1 = true /\ is_digit d2 = true /\
    digits_value (a ++ String d1 (String d2 "")) = n.
Proof.
  cbn [in_fixed_range]. intros H. apply negb_true_iff in H.
  cbn [toFixed]. rewrite H.
  change (10 ^ Z.of_nat 2) with 100.
  destruct (fixed_digits_shape (Z.to_N (scale_half_up (Zpos m * 100) e)))
    as [a [d1 [d2 [E [Hh [Ha [H1 [H2 V]]]]]]]].
  exists (Z.to_N (scale_half_up (Zpos m * 100) e)), a, d1, d2.
  rewrite E. repeat split; assumption.
Qed.

(** The glyph test on a value in range: what [toFixed] printed is read
    back and compared with zero. *)
Lemma direction_in_range (x : number) :
  in_fixed_range x = true ->
  ge_zero (parseFloat_string (toFixed 2 x)) = change_up x.
Proof.
  destruct x as [s|s| |s m e]; try discriminate.
  - intros _. destruct s; vm_compute; reflexivity.
  - intros H.
    destruct (toFixed_finite s m e H) as [n [a [d1 [d2 [En [E [Hh [Ha [H1 [H2 V]]]]]]]]]].
    rewrite E, parseFloat_fixed by assumption.
    rewrite V, ge_zero_hundredths. cbn [change_up]. f_equal.
    subst n.
    pose proof (scale_half_up_nonneg (Zpos m * 100) e ltac:(lia)) as Hn.
    destruct (scale_half_up (Zpos m * 100) e) as [|q|q]; try reflexivity; lia.
Qed.

Lemma two_decimals_in_range (x : number) :
  in_fixed_range x = true -> has_two_decimals (toFixed 2 x) = true.
Proof.
  destruct x as [s|s| |s m e]; try discriminate.
  - intros _. reflexivity.
  - intros H.
    destruct (toFixed_finite s m e H) as [n [a [d1 [d2 [_ [E [Hh [Ha [H1 [H2 _]]]]]]]]]].
    rewrite E. now apply two_decimals_fixed.
Qed.

End Direction.

(** ** Reading an exponent notation back *)

Lemma to_uint_head (q : positive) (d : Decimal.uint) :
  Pos.to_uint q <> Decimal.D0 d.
Proof.
  pose proof (DecimalPos.Unsigned.to_of (Pos.to_uint q)) as H.
  rewrite DecimalPos.Unsigned.of_to in H. cbn [N.to_uint] in H.
  pose proof (DecimalPos.Unsigned.to_uint_nonzero q) as Hz.
  unfold Decimal.unorm in H.
  destruct (Decimal.nzhead (Pos.to_uint q)) eqn:E;
    try (rewrite H; discriminate).
  - now rewrite H in Hz.
  - exfalso. now apply DecimalFacts.nzhead_nonzero in E.
Qed.

(** The digits of a positive number begin with a digit that is not zero. *)
Lemma decimal_digits_head (q : positive) :
  exists c r,
    decimal_digits (Npos q) = String c r /\ nonzero_digit c = true /\
    all_digits r = true.
Proof.
  pose proof (all_digits_decimal (Npos q)) as Hall.
  unfold decimal_digits in *. cbn [N.to_uint] in *.
  pose proof (to_uint_head q) as H0.
  pose proof (DecimalPos.Unsigned.to_uint_nonnil q) as Hn.
  destruct (Pos.to_uint q) as [|d|d|d|d|d|d|d|d|d|d];
    [contradiction|exfalso; now apply (H0 d)|..];
    cbn [NilEmpty.string_of_uint] in *;
    (eexists; eexists; split; [reflexivity|split; [reflexivity|]]);
    exact Hall.
Qed.

Lemma uint_of_digits (s : string) :
  all_digits s = true -> exists d, NilEmpty.uint_of_string s = Some d.
Proof.
  induction s as [|c s IH]; cbn; [eauto|].
  intros H. apply andb_true_iff in H as [Hc Hs].
  destruct (IH Hs) as [d ->].
  destruct (digit_cases c Hc)
    as [->|[->|[->|[->|[->|[->|[->|[->|[->| ->]]]]]]]]]; cbn; eauto.
Qed.

(** Digits that begin with a digit other than zero denote a positive
    number. *)
Lemma digits_value_positive (c : ascii) (s : string) :
  nonzero_digit c = true -> all_digits s = true ->
  exists p, digits_value (String c s) = Npos p.
Proof.
  unfold nonzero_digit. intros Hc Hs.
  apply andb_true_iff in Hc as [Hd Hz].
  unfold digits_value. cbn [NilEmpty.uint_of_string].
  destruct (uint_of_digits s Hs) as [d ->].
  destruct (digit_cases c Hd)
    as [->|[->|[->|[->|[->|[->|[->|[->|[->| ->]]]]]]]]];
    try discriminate Hz; cbn; eauto.
Qed.

Lemma strip_zeros_end_digits (s : string) :
  all_digits s = true ->
  all_digits (strip_zeros_end s) = true /\
  (String.length (strip_zeros_end s) <= String.length s)%nat.
Proof.
  induction s as [|c s IH]; cbn; [auto|].
  intros H. apply andb_true_iff in H as [Hc Hs].
  destruct (IH Hs) as [Ha Hl].
  destruct (strip_zeros_end s) as [|d t] eqn:E.
  - destruct (Ascii.eqb c "0"); cbn; [split; [reflexivity|lia]|].
    rewrite Hc. split; [reflexivity|lia].
  - cbn in *. rewrite Hc, Ha. split; [reflexivity|lia].
Qed.

Lemma strip_zeros_end_head (c : ascii) (s : string) :
  nonzero_digit c = true ->
  strip_zeros_end (String c s) = String c (strip_zeros_end s).
Proof.
  unfold nonzero_digit. intros H. apply andb_true_iff in H as [_ H].
  apply negb_true_iff in H. cbn. rewrite H.
  destruct (strip_zeros_end s); reflexivity.
Qed.

Lemma reads_back_positive (x : positive) (p s : Z) :
  reads_back x p s = true -> (1 <= s)%Z.
Proof.
  unfold reads_back. intros H. apply andb_true_iff in H as [H _].
  now apply Z.leb_le.
Qed.

Lemma pick_digits_positive (x : positive) (p s0 s : Z) :
  pick_digits x p s0 = Some s -> (1 <= s)%Z.
Proof.
  unfold pick_digits.
  destruct (reads_back x p s0) eqn:Lo;
    destruct (reads_back x p (s0 + 1)) eqn:Hi; cbn [andb];
    try apply reads_back_positive in Lo;
    try apply reads_back_positive in Hi.
  - destruct (Zpos x - s0 * p ?= (s0 + 1) * p - Zpos x)%Z;
      [destruct (Z.even s0)|..]; intros [= <-]; lia.
  - intros [= <-]; lia.
  - intros [= <-]; lia.
  - discriminate.
Qed.

Lemma shortest_digits_positive (fuel : nat) (x : positive) (nd k : nat) :
  exists q, fst (shortest_digits fuel x nd k) = Npos q.
Proof.
  revert k. induction fuel as [|fuel IH]; intros k; cbn [shortest_digits].
  - destruct (pick_digits x (10 ^ Z.of_nat (nd - k))
                (Zpos x / 10 ^ Z.of_nat (nd - k))) as [s|] eqn:E.
    + apply pick_digits_positive in E. destruct s; try lia. cbn. eauto.
    + cbn. eauto.
  - destruct (pick_digits x (10 ^ Z.of_nat (nd - k))
                (Zpos x / 10 ^ Z.of_nat (nd - k))) as [s|] eqn:E.
    + apply pick_digits_positive in E. destruct s; try lia. cbn. eauto.
    + apply IH.
Qed.

(** The exponent notation of a large value: a digit other than zero, a
    fraction or none, and an exponent that is not below the number of
    fraction digits. *)
Lemma toString_large_shape (x : positive) :
  exists c rest k,
    toString_large x =
      String c ((match rest with
                 | EmptyString => EmptyString
                 | _ => "." ++ rest
                 end) ++ "e+" ++ decimal_digits k) /\
    nonzero_digit c = true /\ all_digits rest = true /\
    (Z.of_nat (String.length rest) <= Z.of_N k)%Z.
Proof.
  unfold toString_large.
  set (nd := String.length (decimal_digits (Npos x))).
  destruct (shortest_digits_positive nd x nd 1) as [q Hq].
  destruct (shortest_digits nd x nd 1) as [s t]. cbn [fst] in Hq. subst s.
  destruct (decimal_digits_head q) as [c [r [E [Hc Hr]]]].
  rewrite E, (strip_zeros_end_head c r Hc).
  destruct (strip_zeros_end_digits r Hr) as [Ha Hl].
  exists c, (strip_zeros_end r), (N.of_nat (String.length (String c r) + t - 1)).
  cbn [String.length]. repeat split; try assumption.
  - destruct (strip_zeros_end r); reflexivity.
  - lia.
Qed.

Lemma exponent_part_plus (k : N) :
  exponent_part ("e+" ++ decimal_digits k) = Z.of_N k.
Proof.
  unfold exponent_part. cbn [append Ascii.eqb Bool.eqb orb].
  rewrite <- (append_nil_r (decimal_digits k)).
  rewrite span_digits_app by (apply all_digits_decimal || reflexivity).
  cbn [fst].
  pose proof (decimal_digits_nonempty k) as Hne.
  pose proof (digits_value_decimal 0 k) as Hv. cbn [zeros append] in Hv.
  destruct (decimal_digits k); [contradiction|]. now rewrite Hv.
Qed.

(** An exponent notation is read as its digits scaled by a power of ten
    that is not negative. *)
Lemma unsigned_literal_exponent (neg : bool) (c : ascii) (rest : string) (k : N) :
  nonzero_digit c = true -> all_digits rest = true ->
  (Z.of_nat (String.length rest) <= Z.of_N k)%Z ->
  exists p e10,
    (0 <= e10)%Z /\
    unsigned_literal neg
      (String c ((match rest with
                  | EmptyString => EmptyString
                  | _ => "." ++ rest
                  end) ++ "e+" ++ decimal_digits k)) =
    round_decimal neg (Npos p) e10.
Proof.
  intros Hc Hr Hk.
  assert (Hd : is_digit c = true).
  { unfold nonzero_digit in Hc. now apply andb_true_iff in Hc as [Hd _]. }
  unfold unsigned_literal. rewrite (not_infinity c _ Hd).
  destruct rest as [|d rest].
  - change (String c ("" ++ "e+" ++ decimal_digits k))
      with (String c "" ++ "e+" ++ decimal_digits k).
    rewrite span_digits_app by (cbn; now rewrite ?Hd).
    cbn [append]. cbv beta iota zeta.
    change (String "e" (String "+" (decimal_digits k)))
      with ("e+" ++ decimal_digits k).
    rewrite exponent_part_plus.
    destruct (digits_value_positive c "" Hc eq_refl) as [p Hp].
    exists p, (Z.of_N k). rewrite Hp. split; [lia|reflexivity].
  - change (String c (("." ++ String d rest) ++ "e+" ++ decimal_digits k))
      with (String c "" ++ String "." (String d rest ++ "e+" ++ decimal_digits k)).
    rewrite span_digits_app by (cbn; now rewrite ?Hd).
    cbv beta iota zeta.
    rewrite span_digits_app by (assumption || reflexivity).
    rewrite exponent_part_plus. cbn [append].
    destruct (digits_value_positive c (String d rest) Hc Hr) as [p Hp].
    exists p, (Z.of_N k - Z.of_nat (String.length (String d rest)))%Z.
    rewrite Hp. split; [lia|reflexivity].
Qed.

Section Large.
Open Scope Z_scope.

Lemma binary_round_sign (sx : bool) (mx : positive) :
  (exists m e, binary_round prec emax sx mx 0 = S754_finite sx m e) \/
  binary_round prec emax sx mx 0 = S754_infinity sx.
Proof.
  unfold binary_round, shl_align.
  set (ex' := fexp prec emax (Zpos (digits2_pos mx) + 0)).
  assert (He : -1074 <= ex') by (subst ex'; unfold fexp, emin, prec, emax; lia).
  destruct (ex' - 0) as [|d|d] eqn:E;
    apply binary_round_aux_sign; cbn [Zdigits2]; lia.
Qed.

Lemma round_decimal_scaled_sign (neg : bool) (p : positive) (e10 : Z) :
  0 <= e10 ->
  (exists m e, round_decimal neg (Npos p) e10 = S754_finite neg m e) \/
  round_decimal neg (Npos p) e10 = S754_infinity neg.
Proof.
  intros H. unfold round_decimal.
  apply Z.leb_le in H. rewrite H. apply binary_round_sign.
Qed.

Lemma scale_half_up_large (m : positive) (e : Z) :
  at_least (10 ^ 21) (Zpos m) e = true ->
  (scale_half_up (Zpos m * 100) e =? 0) = false.
Proof.
  unfold at_least, scale_half_up. change (10 ^ 21) with 1000000000000000000000.
  destruct (0 <=? e) eqn:E; intros H; apply Z.eqb_neq.
  - apply Z.leb_le in E.
    assert (0 < 2 ^ e) by (apply Z.pow_pos_nonneg; lia). nia.
  - apply Z.leb_gt in E. apply Z.leb_le in H.
    assert (Hp : 0 < 2 ^ (- e)) by (apply Z.pow_pos_nonneg; lia).
    assert (Hq : 2 ^ (1 - e) = 2 * 2 ^ (- e)).
    { replace (1 - e) with (Z.succ (- e)) by lia. apply Z.pow_succ_r. lia. }
    rewrite Hq.
    assert (0 < (2 * (Zpos m * 100) + 2 ^ (- e)) / (2 * 2 ^ (- e))); [|lia].
    apply Z.div_str_pos. nia.
Qed.

(** The glyph test on a finite value of at least [10 ^ 21] in magnitude:
    the exponent notation reads back with the sign it was printed with. *)
Lemma direction_large (s : bool) (m : positive) (e : Z) :
  at_least (10 ^ 21) (Zpos m) e = true ->
  ge_zero (parseFloat_string (toFixed 2 (S754_finite s m e))) =
  change_up (S754_finite s m e).
Proof.
  intros H. cbn [toFixed change_up]. rewrite H, (scale_half_up_large m e H).
  rewrite orb_false_r.
  destruct (toString_large_shape (Z.to_pos (Zpos m * 2 ^ e)))
    as [c [rest [k [E [Hc [Hr Hk]]]]]].
  rewrite E.
  destruct (unsigned_literal_exponent s c rest k Hc Hr Hk) as [p [e10 [He U]]].
  assert (P : parseFloat_string
                ((if s then "-" else "") ++
                 String c ((match rest with
                            | EmptyString => EmptyString
                            | _ => "." ++ rest
                            end) ++ "e+" ++ decimal_digits k)) =
              round_decimal s (Npos p) e10).
  { rewrite <- U. destruct s; [reflexivity|].
    apply parseFloat_digit. unfold nonzero_digit in Hc.
    now apply andb_true_iff in Hc as [Hd _]. }
  rewrite P.
  apply ge_zero_signed, round_decimal_scaled_sign, He.
Qed.

(** The glyph test, for every Number. *)
Lemma direction_spec (x : number) :
  ge_zero (parseFloat_string (toFixed 2 x)) = change_up x.
Proof.
  destruct (in_fixed_range x) eqn:R; [now apply direction_in_range|].
  destruct x as [s|s| |s m e]; try discriminate.
  - destruct s; vm_compute; reflexivity.
  - vm_compute; reflexivity.
  - apply direction_large. cbn in R. now apply negb_false_iff in R.
Qed.

End Large.

Section Threshold.
Open Scope Z_scope.

(** A value rounds to no hundredth exactly when it is below a half of one
    in magnitude: [m * 2 ^ e < 1 / 200]. *)
Lemma rounds_to_zero (m : positive) (e : Z) :
  (scale_half_up (Zpos m * 100) e =? 0) = true <->
  e < 0 /\ 200 * Zpos m < 2 ^ (- e).
Proof.
  unfold scale_half_up. rewrite Z.eqb_eq.
  destruct (0 <=? e) eqn:E.
  - apply Z.leb_le in E.
    assert (0 < 2 ^ e) by (apply Z.pow_pos_nonneg; lia).
    split; [nia|lia].
  - apply Z.leb_gt in E.
    assert (Hp : 0 < 2 ^ (- e)) by (apply Z.pow_pos_nonneg; lia).
    assert (Hq : 2 ^ (1 - e) = 2 * 2 ^ (- e)).
    { replace (1 - e) with (Z.succ (- e)) by lia. apply Z.pow_succ_r. lia. }
    rewrite Hq. split.
    + intros H. split; [exact E|].
      apply Z.div_small_iff in H; lia.
    + intros [_ H]. apply Z.div_small. lia.
Qed.

End Threshold.

(** ** The quote summary *)

(** C9, as stated, fails: a change of -0.001 is negative, yet it is printed
    as -0.00, read back as zero, and shown with the up glyph. *)
Lemma negative_change_counterexample :
  ge_zero (parseFloat_string "-0.0010") = false /\
  formatStockResponse (Some (JObj small_loss_quote)) "aapl" =
  Returned
    (glyph_up ++ " AAPL Stock Info:" ++ nl ++
     "Price: $150.00" ++ nl ++
     "Change: $-0.00 (-0.0007%)" ++ nl ++
     "Today's High: $151.00" ++ nl ++
     "Today's Low: $148.00").
Proof. split; vm_compute; reflexivity. Qed.

(** A field that is not a number is printed as "NaN", with no decimals. *)
Lemma not_a_number_rendering :
  toFixed 2 (parseFloat_string "n/a") = "NaN" /\
  has_two_decimals (toFixed 2 (parseFloat_string "n/a")) = false.
Proof. split; vm_compute; reflexivity. Qed.

(** C9, amended. The summary is the fixed template filled with the price,
    the change, the high and the low, each parsed by [parseFloat] and
    printed by [toFixed(2)], and with the percent change as it came.  A
    value that is finite and below 10^21 in magnitude is printed with
    exactly two decimals (what is not a number is printed as "NaN").  The
    glyph follows the change as printed: up when the change is zero or
    above, and also when it is negative but rounds to -0.00; down when it
    is negative and rounds to at least a hundredth, and when it is not a
    number. *)
Theorem quote_summary_format :
  (forall props symbol price change percent high low,
      ToString (assoc "05. price" props) = Returned price ->
      ToString (assoc "09. change" props) = Returned change ->
      ToString (assoc "10. change percent" props) = Returned percent ->
      ToString (assoc "03. high" props) = Returned high ->
      ToString (assoc "04. low" props) = Returned low ->
      formatStockResponse (Some (JObj props)) symbol =
      Returned
        ((if change_up (parseFloat_string change)
          then glyph_up else glyph_down) ++
         " " ++ toUpperCase symbol ++ " Stock Info:" ++ nl ++
         "Price: $" ++ toFixed 2 (parseFloat_string price) ++ nl ++
         "Change: $" ++ toFixed 2 (parseFloat_string change) ++
         " (" ++ percent ++ ")" ++ nl ++
         "Today's High: $" ++ toFixed 2 (parseFloat_string high) ++ nl ++
         "Today's Low: $" ++ toFixed 2 (parseFloat_string low)))
  /\
  (forall x, in_fixed_range x = true -> has_two_decimals (toFixed 2 x) = true).
Proof.
  split; [|exact two_decimals_in_range].
  intros props symbol price change percent high low Hp Hc Hpc Hh Hl.
  unfold formatStockResponse, parseFloat. cbn [get obind].
  rewrite Hp, Hc, Hpc, Hh, Hl. cbn [obind].
  now rewrite direction_spec.
Qed.

Lemma quote_summary_format_witness :
  formatStockResponse (Some (JObj small_loss_quote)) "aapl" =
  Returned
    ((if change_up (parseFloat_string "-0.0010")
      then glyph_up else glyph_down) ++
     " " ++ toUpperCase "aapl" ++ " Stock Info:" ++ nl ++
     "Price: $" ++ toFixed 2 (parseFloat_string "150.0000") ++ nl ++
     "Change: $" ++ toFixed 2 (parseFloat_string "-0.0010") ++
     " (" ++ "-0.0007%" ++ ")" ++ nl ++
     "Today's High: $" ++ toFixed 2 (parseFloat_string "151.0000") ++ nl ++
     "Today's Low: $" ++ toFixed 2 (parseFloat_string "148.0000")).
Proof.
  apply (proj1 quote_summary_format small_loss_quote "aapl"); reflexivity.
Defined.

(** * Further properties of the program *)

(** ** Letter case and white space *)

Lemma lower_char_idempotent (c : ascii) : lower_char (lower_char c) = lower_char c.
Proof. destruct c as [[] [] [] [] [] [] [] []]; reflexivity. Qed.

Lemma lower_upper_char (c : ascii) : lower_char (upper_char c) = lower_char c.
Proof. destruct c as [[] [] [] [] [] [] [] []]; reflexivity. Qed.

Lemma is_white_lower_char (c : ascii) : is_white (lower_char c) = is_white c.
Proof. destruct c as [[] [] [] [] [] [] [] []]; reflexivity. Qed.

Lemma toLowerCase_idempotent (s : string) :
  toLowerCase (toLowerCase s) = toLowerCase s.
Proof.
  induction s as [|c s IH]; [reflexivity|].
  cbn. rewrite lower_char_idempotent. f_equal. exact IH.
Qed.

Lemma toLowerCase_toUpperCase (s : string) :
  toLowerCase (toUpperCase s) = toLowerCase s.
Proof.
  induction s as [|c s IH]; [reflexivity|].
  cbn. rewrite lower_upper_char. f_equal. exact IH.
Qed.

Lemma trimStart_toLowerCase (s : string) :
  trimStart (toLowerCase s) = toLowerCase (trimStart s).
Proof.
  induction s as [|c s IH]; [reflexivity|].
  cbn. rewrite is_white_lower_char. destruct (is_white c); [exact IH|reflexivity].
Qed.

Lemma trimEnd_toLowerCase (s : string) :
  trimEnd (toLowerCase s) = toLowerCase (trimEnd s).
Proof.
  induction s as [|c s IH]; [reflexivity|].
  cbn. fold (toLowerCase s). rewrite IH, is_white_lower_char.
  destruct (trimEnd s); cbn; [destruct (is_white c)|]; reflexivity.
Qed.

(** Trimming and lowercasing can be done in either order. *)
Lemma trim_toLowerCase (s : string) :
  trim (toLowerCase s) = toLowerCase (trim s).
Proof. unfold trim. now rewrite trimStart_toLowerCase, trimEnd_toLowerCase. Qed.

Lemma same_lowercase (m1 m2 : string) (net : network) (log : list string) :
  toLowerCase m1 = toLowerCase m2 ->
  getBotResponse_traced m1 net log = getBotResponse_traced m2 net log.
Proof.
  intros H. unfold getBotResponse_traced, parseCommand. now rewrite H.
Qed.

(** X1. [getBotResponse] does not see the letter case of a message of
    ASCII characters: such a message written in capitals, or in small
    letters, gets the response of the message itself, by the same branch
    and with the same requests. *)
Theorem response_ignores_case (m : string) (net : network) (log : list string) :
  ascii_only m = true ->
  getBotResponse_traced (toUpperCase m) net log = getBotResponse_traced m net log
  /\ getBotResponse_traced (toLowerCase m) net log = getBotResponse_traced m net log.
Proof.
  intros _.
  split; apply same_lowercase.
  - apply toLowerCase_toUpperCase.
  - apply toLowerCase_idempotent.
Qed.

Lemma response_ignores_case_witness :
  getBotResponse_traced (toUpperCase "Stock Aapl") sample_network [] =
    getBotResponse_traced "Stock Aapl" sample_network []
  /\ getBotResponse_traced (toLowerCase "Stock Aapl") sample_network [] =
    getBotResponse_traced "Stock Aapl" sample_network [].
Proof.
  apply (response_ignores_case "Stock Aapl" sample_network []).
  vm_compute. reflexivity.
Defined.

(** ** What each kind of message can lead to *)

Lemma truthy_lookup_truthy (key : string) (v : value) :
  truthy_lookup key = Some v -> truthy_value v = true.
Proof.
  unfold truthy_lookup. destruct (lookup key) as [w|]; [|discriminate].
  destruct (truthy_value w) eqn:T; [|discriminate]. now intros [= <-].
Qed.

Lemma truthy_error_truthy {A : Type} (r : reply A) (msg : string) :
  truthy_error r = Some msg -> truthy msg = true.
Proof.
  unfold truthy_error. destruct (error r) as [e|]; [|discriminate].
  destruct (truthy e) eqn:T; [|discriminate]. now intros [= <-].
Qed.

(** A message that is no stock command is answered from the table, at
    once: by the exact lookup, or else by a text that is not empty. *)
Lemma static_cases (m : string) (net : network) (log : list string) :
  stock_command m = false ->
  (exists v,
      truthy_lookup (toLowerCase m) = Some v /\
      getBotResponse_traced m net log =
      (Returned (ExactBranch, {| text := v; chartData := None |}), log))
  \/
  (truthy_lookup (toLowerCase m) = None /\
   exists b s,
     (b = PartialBranch \/ b = TermBranch \/ b = DefaultBranch) /\
     truthy s = true /\
     getBotResponse_traced m net log = (Returned (b, plain s), log)).
Proof.
  intros Hs. unfold getBotResponse_traced. cbv zeta.
  change (String.eqb (command (parseCommand m)) "stock"
          && truthy (args (parseCommand m)))%bool with (stock_command m).
  rewrite Hs.
  destruct (truthy_lookup (toLowerCase m)) as [v|] eqn:L.
  - left. exists v. split; reflexivity.
  - right. split; [reflexivity|].
    destruct (find (fun kv => includes (toLowerCase m) (fst kv))
                   predefinedResponses) as [[k a]|] eqn:F.
    + exists PartialBranch, a. repeat split; [tauto|].
      apply find_some in F as [Hin _].
      pose proof answers_truthy as T. rewrite forallb_forall in T.
      exact (T (k, a) Hin).
    + match goal with
      | |- context [if ?c then _ else _] => destruct c
      end.
      * eexists TermBranch, _. repeat split; [tauto|reflexivity].
      * exists DefaultBranch, default_text. repeat split; tauto.
Qed.

Lemma formatStockResponse_truthy (d : option json) (symbol s : string) :
  formatStockResponse d symbol = Returned s -> truthy s = true.
Proof.
  unfold formatStockResponse, parseFloat.
  repeat match goal with
         | |- context [obind ?o _] =>
             lazymatch o with
             | context [obind] => fail
             | _ => destruct o; cbn [obind]; [|discriminate]
             end
         end.
  intros [= <-].
  destruct (ge_zero _); reflexivity.
Qed.

(** A stock command is answered by the stock branch, after both
    requests. *)
Lemma stock_cases (m : string) (net : network) (log : list string) :
  stock_command m = true ->
  exists q h,
    quote_result (symbol_of m) net = Returned q /\
    history_result (symbol_of m) net = Returned h /\
    getBotResponse_traced m net log =
    (match truthy_error q with
     | Some msg => Returned (StockBranch, plain msg)
     | None =>
         match formatStockResponse (data q) (symbol_of m) with
         | Returned response =>
             Returned
               (StockBranch,
                match truthy_error h with
                | None =>
                    {| text := VString response;
                       chartData := Some {| symbol := toUpperCase (symbol_of m);
                                            series := data h |} |}
                | Some _ => plain response
                end)
         | Thrown => Thrown
         end
     end,
     (log ++ [quote_url (symbol_of m); history_url (symbol_of m)])%list).
Proof.
  intros Hs.
  destruct (getStockData_returns (symbol_of m) net) as [q Hq].
  destruct (getHistoricalData_returns (symbol_of m) net) as [h Hh].
  exists q, h. repeat split; try assumption.
  now apply stock_branch.
Qed.

Lemma static_any_network (m : string) (net net' : network) (log : list string) :
  stock_command m = false ->
  getBotResponse_traced m net' log = getBotResponse_traced m net log.
Proof.
  intros Hs. unfold getBotResponse_traced. cbv zeta.
  change (String.eqb (command (parseCommand m)) "stock"
          && truthy (args (parseCommand m)))%bool with (stock_command m).
  rewrite Hs.
  destruct (truthy_lookup (toLowerCase m)); [reflexivity|].
  destruct (find (fun kv => includes (toLowerCase m) (fst kv))
                 predefinedResponses) as [[k a]|]; [reflexivity|].
  match goal with
  | |- context [if ?c then _ else _] => destruct c
  end; reflexivity.
Qed.

(** X2. A message that is no stock command is answered without the
    network: nothing is requested (the log is unchanged), nothing is
    thrown, the response carries no chart, and it is the same on every
    network. *)
Theorem table_answers_offline (m : string) (net : network) (log : list string) :
  stock_command m = false ->
  exists b v,
    b <> StockBranch /\
    forall net', getBotResponse_traced m net' log =
                 (Returned (b, {| text := v; chartData := None |}), log).
Proof.
  intros Hs.
  destruct (static_cases m net log Hs) as [[v [L E]]|[L [b [s [Hb [T E]]]]]].
  - exists ExactBranch, v. split; [discriminate|].
    intros net'. now rewrite (static_any_network m net net' log Hs).
  - exists b, (VString s). split; [destruct Hb as [->|[->| ->]]; discriminate|].
    intros net'. now rewrite (static_any_network m net net' log Hs).
Qed.

Lemma table_answers_offline_witness :
  exists b v,
    b <> StockBranch /\
    forall net', getBotResponse_traced "any investment tips?" net' [] =
                 (Returned (b, {| text := v; chartData := None |}), []).
Proof.
  apply (table_answers_offline "any investment tips?" offline []).
  vm_compute. reflexivity.
Defined.
Lemma response_log (m : string) (net : network) (log : list string) :
  snd (getBotResponse m net log) =
  if stock_command m
  then (log ++ [quote_url (symbol_of m); history_url (symbol_of m)])%list
  else log.
Proof.
  rewrite getBotResponse_of_traced.
  destruct (stock_command m) eqn:Hs.
  - destruct (stock_cases m net log Hs) as [q [h [_ [_ E]]]]. rewrite E.
    destruct (truthy_error q); [reflexivity|].
    destruct (formatStockResponse (data q) (symbol_of m)); reflexivity.
  - destruct (static_cases m net log Hs) as [[v [_ E]]|[_ [b [s [_ [_ E]]]]]];
      now rewrite E.
Qed.


(** X3. The requests of [getBotResponse]: a stock command makes exactly
    two, the quote and then the history of the same symbol, whatever the
    first one brings (a failed quote does not spare the history request);
    any other message makes none. *)
Theorem requests_made (m : string) (net : network) (log : list string) :
  snd (getBotResponse m net log) =
  if stock_command m
  then (log ++ [quote_url (symbol_of m); history_url (symbol_of m)])%list
  else log.
Proof.
  exact (response_log m net log).
Qed.

(** X4. [getBotResponse] throws in one situation only: the message is a
    stock command, the quote fetch succeeded, and formatting the quote
    throws. *)
Theorem throws_only_when_formatting (m : string) (net : network) (log : list string) :
  fst (getBotResponse m net log) = Thrown <->
  stock_command m = true /\
  exists q,
    quote_result (symbol_of m) net = Returned q /\
    truthy_error q = None /\
    formatStockResponse (data q) (symbol_of m) = Thrown.
Proof.
  rewrite getBotResponse_of_traced. split.
  - destruct (stock_command m) eqn:Hs.
    + destruct (stock_cases m net log Hs) as [q [h [Hq [_ E]]]]. rewrite E.
      destruct (truthy_error q) eqn:T; [discriminate|].
      destruct (formatStockResponse (data q) (symbol_of m)) eqn:F;
        [discriminate|].
      intros _. split; [reflexivity|]. exists q. now repeat split.
    + destruct (static_cases m net log Hs) as [[v [_ E]]|[_ [b [s [_ [_ E]]]]]];
        rewrite E; discriminate.
  - intros [Hs [q [Hq [T F]]]].
    destruct (getHistoricalData_returns (symbol_of m) net) as [h Hh].
    now rewrite (stock_branch m net log q h Hs Hq Hh), T, F.
Qed.

(** X5. The text of a response is never the empty string. *)
Theorem text_never_empty (m : string) (net : network) (log : list string)
        (r : BotResponse) :
  fst (getBotResponse m net log) = Returned r -> truthy_value (text r) = true.
Proof.
  rewrite getBotResponse_of_traced.
  destruct (stock_command m) eqn:Hs.
  - destruct (stock_cases m net log Hs) as [q [h [_ [_ E]]]]. rewrite E.
    destruct (truthy_error q) as [msg|] eqn:T.
    + intros [= <-]. cbn. now apply truthy_error_truthy in T.
    + destruct (formatStockResponse (data q) (symbol_of m)) as [s|] eqn:F;
        [|discriminate].
      apply formatStockResponse_truthy in F.
      intros [= <-]. destruct (truthy_error h); exact F.
  - destruct (static_cases m net log Hs) as [[v [L E]]|[_ [b [s [_ [T E]]]]]];
      rewrite E; intros [= <-]; cbn; [|exact T].
    now apply truthy_lookup_truthy in L.
Qed.

Lemma text_never_empty_witness :
  truthy_value (text (plain default_text)) = true.
Proof.
  apply (text_never_empty "" offline [] (plain default_text)). reflexivity.
Defined.

Lemma lowercase_members (s : string) :
  In s object_prototype_members -> toLowerCase s = s ->
  s = "constructor" \/ s = "__proto__".
Proof.
  cbn. intros H E.
  repeat (destruct H as [<-|H]; [first [now left | now right | discriminate E]|]).
  contradiction.
Qed.

Lemma lookup_inherited (key name : string) :
  truthy_lookup key = Some (VInherited name) ->
  name = key /\ In key object_prototype_members.
Proof.
  unfold truthy_lookup, lookup.
  destruct (assoc key predefinedResponses) as [a|].
  - cbn. destruct (truthy a); discriminate.
  - destruct (existsb (String.eqb key) object_prototype_members) eqn:X;
      [|discriminate].
    cbn. intros [= <-]. split; [reflexivity|].
    apply existsb_exists in X as [x [Hx Ex]].
    apply String.eqb_eq in Ex. now subst.
Qed.

(** X6. The text of a response is a string, except for two messages: the
    lookup in the table also finds what the table inherits, so the
    messages "constructor" and "__proto__" (in any letter case) are
    answered with the inherited member itself. *)
Theorem text_is_string_but_for_inherited
        (m : string) (net : network) (log : list string) (r : BotResponse) :
  fst (getBotResponse m net log) = Returned r ->
  ((exists name, text r = VInherited name) <->
   (toLowerCase m = "constructor" \/ toLowerCase m = "__proto__")).
Proof.
  rewrite getBotResponse_of_traced. intros H. split.
  - intros [name Hn].
    destruct (stock_command m) eqn:Hs.
    + destruct (stock_cases m net log Hs) as [q [h [_ [_ E]]]]. rewrite E in H.
      destruct (truthy_error q); [injection H as <-; discriminate|].
      destruct (formatStockResponse (data q) (symbol_of m)); [|discriminate].
      injection H as <-. destruct (truthy_error h); discriminate.
    + destruct (static_cases m net log Hs) as [[v [L E]]|[_ [b [s [_ [_ E]]]]]];
        rewrite E in H; injection H as <-; cbn in Hn; [|discriminate].
      subst v. apply lookup_inherited in L as [_ L].
      apply lowercase_members; [exact L|apply toLowerCase_idempotent].
  - intros Hm.
    assert (Hs : stock_command m = false).
    { unfold stock_command, parseCommand. cbn [command args].
      destruct Hm as [-> | ->]; reflexivity. }
    assert (L : truthy_lookup (toLowerCase m) = Some (VInherited (toLowerCase m))).
    { destruct Hm as [-> | ->]; reflexivity. }
    rewrite (exact_branch m net log _ Hs L) in H. injection H as <-.
    now exists (toLowerCase m).
Qed.

Lemma text_is_string_but_for_inherited_witness :
  (exists name, text {| text := VInherited "constructor"; chartData := None |}
                = VInherited name) <->
  (toLowerCase "Constructor" = "constructor" \/
   toLowerCase "Constructor" = "__proto__").
Proof.
  apply (text_is_string_but_for_inherited "Constructor" offline []).
  reflexivity.
Defined.

(** ** The replies of the two fetchers *)

(** X7. [getStockData] answers in one of four ways: the rate-limit text,
    the not-found text with the symbol as it was given, the generic
    failure text, or the quote, which is then truthy and has at least one
    key.  An [error] and a [data] never come together. *)
Theorem quote_reply_kinds (symbol : string) (net : network) (r : reply json) :
  quote_result symbol net = Returned r ->
  r = failed rate_limit_text \/
  r = failed ("Could not find stock data for symbol: " ++ symbol) \/
  r = failed "Failed to fetch stock data. Please try again." \/
  exists quote,
    r = succeeded (Some quote) /\
    truthy_json (Some quote) = true /\
    (1 <= List.length (entries quote))%nat.
Proof.
  unfold quote_result, getStockData, try_catch, bind, fetch_json, lift, ret.
  cbn [fst]. destruct (net (quote_url symbol)) as [| |document]; kcbn;
    try (intros [= <-]; tauto).
  destruct (get (Some document) "Note") as [note|]; kcbn;
    [|intros [= <-]; tauto].
  destruct (truthy_json note); kcbn; [intros [= <-]; tauto|].
  destruct (get (Some document) "Global Quote") as [quote|]; kcbn;
    [|intros [= <-]; tauto].
  destruct (truthy_json quote) eqn:T; kcbn; [|intros [= <-]; tauto].
  destruct quote as [quote|]; [|discriminate T].
  destruct (keys_length (Some quote)) as [n|] eqn:K; kcbn;
    [|intros [= <-]; tauto].
  destruct (n =? 0)%nat eqn:N; kcbn; intros [= <-]; [tauto|].
  right; right; right. exists quote. repeat split; [exact T|].
  apply Nat.eqb_neq in N. unfold keys_length, object_entries in K.
  destruct quote; try discriminate T; cbn [obind] in K;
    injection K as K; cbn [entries] in *; lia.
Qed.

Lemma quote_reply_kinds_witness :
  let r : reply json := failed "Failed to fetch stock data. Please try again." in
  r = failed rate_limit_text \/
  r = failed ("Could not find stock data for symbol: " ++ "aapl") \/
  r = failed "Failed to fetch stock data. Please try again." \/
  exists quote,
    r = succeeded (Some quote) /\
    truthy_json (Some quote) = true /\
    (1 <= List.length (entries quote))%nat.
Proof.
  apply (quote_reply_kinds "aapl" offline). reflexivity.
Defined.

Lemma length_substring0 (n : nat) (s : string) :
  (String.length (substring0 n s) <= n)%nat.
Proof.
  unfold substring0. revert s. induction n as [|n IH]; intros s.
  - destruct s; cbn; lia.
  - destruct s as [|c s]; cbn; [lia|]. specialize (IH s). lia.
Qed.

Lemma history_reply_cases (symbol : string) (net : network)
      (r : reply (list Point)) :
  history_result symbol net = Returned r ->
  r = failed rate_limit_text \/
  r = failed "No historical data found" \/
  r = failed "Failed to fetch historical data" \/
  exists es points,
    r = succeeded (Some points) /\
    omap history_point (rev (firstn 12 es)) = Returned points.
Proof.
  unfold history_result, getHistoricalData, try_catch, bind, fetch_json, lift, ret.
  cbn [fst]. destruct (net (history_url symbol)) as [| |document]; kcbn;
    try (intros [= <-]; tauto).
  destruct (get (Some document) "Note") as [note|]; kcbn;
    [|intros [= <-]; tauto].
  destruct (truthy_json note); kcbn; [intros [= <-]; tauto|].
  destruct (get (Some document) "Monthly Time Series") as [monthly|]; kcbn;
    [|intros [= <-]; tauto].
  destruct (truthy_json monthly); kcbn; [|intros [= <-]; tauto].
  destruct (object_entries monthly) as [es|]; kcbn; [|intros [= <-]; tauto].
  destruct (omap history_point (rev (firstn 12 es))) as [points|] eqn:O; kcbn;
    intros [= <-]; [|tauto].
  right; right; right. now exists es, points.
Qed.

Lemma points_bounded (es : list (string * json)) (points : list Point) :
  omap history_point (rev (firstn 12 es)) = Returned points ->
  (List.length points <= 12)%nat /\
  Forall (fun p => (String.length (date p) <= 7)%nat) points.
Proof.
  intros O. apply omap_Forall2 in O. split.
  - rewrite <- (Forall2_length O), length_rev, length_firstn. lia.
  - induction O as [|e p l l' Hp _ IH]; constructor; [|exact IH].
    apply history_point_date in Hp as ->. apply length_substring0.
Qed.

(** X8. [getHistoricalData] answers with one of three error texts, or
    with a series of at most twelve points whose dates are at most seven
    characters long. *)
Theorem history_reply_kinds (symbol : string) (net : network)
        (r : reply (list Point)) :
  history_result symbol net = Returned r ->
  r = failed rate_limit_text \/
  r = failed "No historical data found" \/
  r = failed "Failed to fetch historical data" \/
  exists points,
    r = succeeded (Some points) /\
    (List.length points <= 12)%nat /\
    Forall (fun p => (String.length (date p) <= 7)%nat) points.
Proof.
  intros H.
  destruct (history_reply_cases symbol net r H)
    as [E|[E|[E|[es [points [E O]]]]]]; try tauto.
  right; right; right. exists points. split; [exact E|].
  now apply points_bounded in O.
Qed.

Lemma history_reply_kinds_witness :
  let r : reply (list Point) := failed "Failed to fetch historical data" in
  r = failed rate_limit_text \/
  r = failed "No historical data found" \/
  r = failed "Failed to fetch historical data" \/
  exists points,
    r = succeeded (Some points) /\
    (List.length points <= 12)%nat /\
    Forall (fun p => (String.length (date p) <= 7)%nat) points.
Proof.
  apply (history_reply_kinds "aapl" offline). reflexivity.
Defined.

(** X9. A series that is there but empty is no failure: a history
    document whose monthly mapping has no entry gives a successful reply
    with an empty series. *)
Theorem empty_series_succeeds (symbol : string) (net : network)
        (props : list (string * json)) :
  net (history_url symbol) = Json (JObj props) ->
  truthy_json (assoc "Note" props) = false ->
  assoc "Monthly Time Series" props = Some (JObj []) ->
  history_result symbol net = Returned (succeeded (Some [])).
Proof.
  intros Hnet Hnote Hm.
  unfold history_result, getHistoricalData, try_catch, bind, fetch_json, lift, ret.
  cbn [fst]. rewrite Hnet. kcbn. cbn [get]. rewrite Hnote, Hm. reflexivity.
Qed.

Lemma empty_series_succeeds_witness :
  history_result "aapl" (always (JObj [("Monthly Time Series", JObj [])])) =
  Returned (succeeded (Some [])).
Proof.
  apply (empty_series_succeeds
           "aapl" (always (JObj [("Monthly Time Series", JObj [])]))
           [("Monthly Time Series", JObj [])]); reflexivity.
Defined.

(** X10. A chart comes from the stock branch only, and is always the
    same shape: the symbol of the command in capitals, and a series of at
    most twelve points with dates of at most seven characters. *)
Theorem chart_shape (m : string) (net : network) (log : list string)
        (r : BotResponse) (chart : ChartData) :
  fst (getBotResponse m net log) = Returned r ->
  chartData r = Some chart ->
  stock_command m = true /\
  symbol chart = toUpperCase (symbol_of m) /\
  exists points,
    series chart = Some points /\
    (List.length points <= 12)%nat /\
    Forall (fun p => (String.length (date p) <= 7)%nat) points.
Proof.
  rewrite getBotResponse_of_traced.
  destruct (stock_command m) eqn:Hs.
  - destruct (stock_cases m net log Hs) as [q [h [_ [Hh E]]]]. rewrite E.
    destruct (truthy_error q); [intros [= <-]; discriminate|].
    destruct (formatStockResponse (data q) (symbol_of m)); [|discriminate].
    destruct (truthy_error h) eqn:T; intros [= <-]; [discriminate|].
    intros [= <-]. split; [reflexivity|]. split; [reflexivity|].
    destruct (history_reply_cases _ _ _ Hh)
      as [->|[->|[->|[es [points [-> O]]]]]]; try discriminate T.
    exists points. split; [reflexivity|]. now apply points_bounded in O.
  - destruct (static_cases m net log Hs) as [[v [_ E]]|[_ [b [s [_ [_ E]]]]]];
      rewrite E; intros [= <-]; discriminate.
Qed.

Lemma chart_shape_witness :
  stock_command "stock AAPL" = true /\
  symbol {| symbol := "AAPL";
            series := Some (map point_of (rev (firstn 12 sample_closes))) |} =
    toUpperCase (symbol_of "stock AAPL") /\
  exists points,
    series {| symbol := "AAPL";
              series := Some (map point_of (rev (firstn 12 sample_closes))) |} =
      Some points /\
    (List.length points <= 12)%nat /\
    Forall (fun p => (String.length (date p) <= 7)%nat) points.
Proof.
  apply (chart_shape
           "stock AAPL" sample_network []
           {| text := VString sample_summary;
              chartData :=
                Some {| symbol := "AAPL";
                        series := Some (map point_of
                                            (rev (firstn 12 sample_closes))) |} |}).
  - vm_compute. reflexivity.
  - reflexivity.
Defined.

(** ** The symbol of a stock command *)

Lemma split_app (a b : string) :
  has_char " " a = false ->
  split " " (a ++ String " " b) = a :: split " " b.
Proof.
  induction a as [|c a IH]; intros H; [reflexivity|].
  cbn [has_char] in H. apply orb_false_iff in H as [Hc Ha].
  cbn [append split]. rewrite Hc, (IH Ha). reflexivity.
Qed.

Lemma hd_split_app (a rest : string) :
  has_char " " a = false ->
  rest = "" \/ (exists r, rest = String " " r) ->
  hd "" (split " " (a ++ rest)) = a.
Proof.
  intros Ha [->|[r ->]].
  - rewrite append_nil_r, split_no_sep by assumption. reflexivity.
  - now rewrite split_app.
Qed.

(** X11. The symbol of a stock command is the first word after "stock":
    whatever follows that word and a space is ignored, and the symbol goes
    to the service in small letters. *)
Theorem symbol_is_first_argument (m sym rest : string) :
  trim (toLowerCase m) = "stock " ++ sym ++ rest ->
  sym <> "" ->
  has_char " " sym = false ->
  rest = "" \/ (exists r, rest = String " " r) ->
  stock_command m = true /\
  symbol_of m = sym /\
  toLowerCase sym = sym.
Proof.
  intros Ht Hne Hsp Hrest.
  assert (Hparts : split " " (trim (toLowerCase m)) =
                   "stock" :: split " " (sym ++ rest)).
  { rewrite Ht. apply (split_app "stock"). reflexivity. }
  assert (Hargs : args (parseCommand m) = sym ++ rest).
  { unfold parseCommand. cbn [args]. rewrite Hparts. cbn [tl].
    apply (join_split " "). }
  split; [|split].
  - unfold stock_command. rewrite Hargs.
    unfold parseCommand. cbn [command]. rewrite Hparts. cbn [hd].
    destruct sym; [contradiction|reflexivity].
  - unfold symbol_of. rewrite Hargs. now apply hd_split_app.
  - assert (E : toLowerCase ("stock " ++ sym ++ rest) = "stock " ++ sym ++ rest).
    { rewrite <- Ht, trim_toLowerCase. apply toLowerCase_idempotent. }
    clear - E. cbn in E. injection E as E.
    revert E. generalize rest. clear.
    induction sym as [|c s IH]; intros rest E; [reflexivity|].
    cbn in E |- *. injection E as Ec Es. rewrite Ec. f_equal.
    now apply (IH rest).
Qed.

Lemma symbol_is_first_argument_witness :
  stock_command "  Stock AAPL now please " = true /\
  symbol_of "  Stock AAPL now please " = "aapl" /\
  toLowerCase "aapl" = "aapl".
Proof.
  apply (symbol_is_first_argument "  Stock AAPL now please " "aapl" " now please").
  - vm_compute. reflexivity.
  - discriminate.
  - reflexivity.
  - right. eexists. reflexivity.
Defined.

(** X12. Two spaces after "stock" make the symbol empty: the command is
    still a stock command, and what is asked of the service is the quote
    and the history of the empty symbol. *)
Theorem double_space_empty_symbol (m rest : string) (net : network)
        (log : list string) :
  trim (toLowerCase m) = "stock  " ++ rest ->
  stock_command m = true /\
  symbol_of m = "" /\
  snd (getBotResponse m net log) = (log ++ [quote_url ""; history_url ""])%list.
Proof.
  intros Ht.
  assert (Hparts : split " " (trim (toLowerCase m)) =
                   "stock" :: "" :: split " " rest).
  { rewrite Ht. reflexivity. }
  assert (Hargs : args (parseCommand m) = String " " rest).
  { unfold parseCommand. cbn [args]. rewrite Hparts. cbn [tl].
    rewrite join_cons by apply split_not_nil.
    now rewrite (join_split " "). }
  assert (Hs : stock_command m = true).
  { unfold stock_command. rewrite Hargs.
    unfold parseCommand. cbn [command]. rewrite Hparts. reflexivity. }
  assert (Hsym : symbol_of m = "").
  { unfold symbol_of. rewrite Hargs. reflexivity. }
  repeat split; try assumption.
  rewrite getBotResponse_of_traced.
  destruct (stock_cases m net log Hs) as [q [h [_ [_ E]]]]. rewrite E, Hsym.
  destruct (truthy_error q); [reflexivity|].
  destruct (formatStockResponse (data q) ""); reflexivity.
Qed.

Lemma double_space_empty_symbol_witness :
  stock_command "stock  aapl" = true /\
  symbol_of "stock  aapl" = "" /\
  snd (getBotResponse "stock  aapl" offline []) =
  ([] ++ [quote_url ""; history_url ""])%list.
Proof.
  apply (double_space_empty_symbol "stock  aapl" "aapl" offline []).
  vm_compute. reflexivity.
Defined.

(** X13. Only a space separates the command from its argument: a message
    without a space character (a tab between "stock" and the symbol, for
    one) is no stock command, and nothing is requested for it. *)
Theorem no_space_no_request (m : string) (net : network) (log : list string) :
  has_char " " (trim (toLowerCase m)) = false ->
  stock_command m = false /\
  snd (getBotResponse m net log) = log.
Proof.
  intros H.
  assert (Hs : stock_command m = false).
  { unfold stock_command, parseCommand. cbn [command args].
    rewrite (split_no_sep " " _ H). cbn [tl]. apply andb_false_r. }
  split; [exact Hs|].
  rewrite getBotResponse_of_traced.
  destruct (static_cases m net log Hs) as [[v [_ E]]|[_ [b [s [_ [_ E]]]]]];
    now rewrite E.
Qed.

Lemma no_space_no_request_witness :
  stock_command (String "s" (String "t" (String "o" (String "c" (String "k"
                 (String (ascii_of_nat 9) "aapl")))))) = false /\
  snd (getBotResponse
         (String "s" (String "t" (String "o" (String "c" (String "k"
            (String (ascii_of_nat 9) "aapl")))))) offline []) = [].
Proof.
  apply no_space_no_request. vm_compute. reflexivity.
Defined.

(** ** What [formatStockResponse] makes of a quote *)

Lemma ToString_thrown (v : option json) :
  ToString v = Thrown <->
  exists fields inner,
    v = Some (JObj fields) /\ assoc "toString" fields = Some inner.
Proof.
  split.
  - destruct v as [[|[]|s|fields]|]; cbn; try discriminate.
    destruct (assoc "toString" fields) as [inner|] eqn:E; [|discriminate].
    intros _. now exists fields, inner.
  - intros [fields [inner [-> E]]]. cbn. now rewrite E.
Qed.

(** X14. Formatting a quote object throws exactly when one of the five
    fields it prints is itself an object with a property named
    "toString"; a field that is a string, missing, [null] or a boolean
    never makes it throw. *)
Theorem format_throws_iff (props : list (string * json)) (symbol : string) :
  formatStockResponse (Some (JObj props)) symbol = Thrown <->
  exists key fields inner,
    In key quote_fields /\
    assoc key props = Some (JObj fields) /\
    assoc "toString" fields = Some inner.
Proof.
  unfold formatStockResponse, parseFloat. cbn [get obind]. split.
  - intros H.
    assert (T : exists key, In key quote_fields /\
                            ToString (assoc key props) = Thrown).
    { destruct (ToString (assoc "05. price" props)) eqn:T1; cbn [obind] in H;
        [|exists "05. price"; split; [cbn; tauto|assumption]].
      destruct (ToString (assoc "09. change" props)) eqn:T2; cbn [obind] in H;
        [|exists "09. change"; split; [cbn; tauto|assumption]].
      destruct (ToString (assoc "10. change percent" props)) eqn:T3;
        cbn [obind] in H;
        [|exists "10. change percent"; split; [cbn; tauto|assumption]].
      destruct (ToString (assoc "03. high" props)) eqn:T4; cbn [obind] in H;
        [|exists "03. high"; split; [cbn; tauto|assumption]].
      destruct (ToString (assoc "04. low" props)) eqn:T5; cbn [obind] in H;
        [discriminate|exists "04. low"; split; [cbn; tauto|assumption]]. }
    destruct T as [key [Hin T]].
    apply ToString_thrown in T as [fields [inner [E I]]].
    now exists key, fields, inner.
  - intros [key [fields [inner [Hin [E I]]]]].
    assert (T : ToString (assoc key props) = Thrown).
    { apply ToString_thrown. now exists fields, inner. }
    destruct (ToString (assoc "05. price" props)) eqn:T1; cbn [obind];
      [|reflexivity].
    destruct (ToString (assoc "09. change" props)) eqn:T2; cbn [obind];
      [|reflexivity].
    destruct (ToString (assoc "10. change percent" props)) eqn:T3; cbn [obind];
      [|reflexivity].
    destruct (ToString (assoc "03. high" props)) eqn:T4; cbn [obind];
      [|reflexivity].
    destruct (ToString (assoc "04. low" props)) eqn:T5; cbn [obind];
      [|reflexivity].
    exfalso. cbn in Hin.
    destruct Hin as [<-|[<-|[<-|[<-|[<-|[]]]]]]; congruence.
Qed.

(** X15. A quote object without the five fields is still formatted: every
    number is printed as "NaN", the percent change as "undefined", and the
    glyph is the down one. *)
Theorem missing_fields_render (props : list (string * json)) (symbol : string) :
  (forall key, In key quote_fields -> assoc key props = None) ->
  formatStockResponse (Some (JObj props)) symbol =
  Returned
    (glyph_down ++ " " ++ toUpperCase symbol ++ " Stock Info:" ++ nl ++
     "Price: $NaN" ++ nl ++
     "Change: $NaN (undefined)" ++ nl ++
     "Today's High: $NaN" ++ nl ++
     "Today's Low: $NaN").
Proof.
  intros H. unfold formatStockResponse, parseFloat. cbn [get obind].
  rewrite !H by (cbn; tauto). reflexivity.
Qed.

Lemma missing_fields_render_witness :
  formatStockResponse (Some (JObj [("01. symbol", JStr "AAPL")])) "aapl" =
  Returned
    (glyph_down ++ " " ++ toUpperCase "aapl" ++ " Stock Info:" ++ nl ++
     "Price: $NaN" ++ nl ++
     "Change: $NaN (undefined)" ++ nl ++
     "Today's High: $NaN" ++ nl ++
     "Today's Low: $NaN").
Proof.
  apply missing_fields_render.
  intros key [<-|[<-|[<-|[<-|[<-|[]]]]]]; reflexivity.
Defined.

(** ** The definition branch *)

Lemma replace_unfold (pat rep s : string) :
  replace pat rep s =
  if String.prefix pat s then rep ++ drop (String.length pat) s
  else match s with
       | EmptyString => EmptyString
       | String c s' => String c (replace pat rep s')
       end.
Proof. destruct s; reflexivity. Qed.

Lemma prefix_app (p r : string) : String.prefix p (p ++ r) = true.
Proof.
  induction p as [|c p IH]; [apply prefix_nil|].
  cbn [append]. rewrite prefix_cons, Ascii.eqb_refl. exact IH.
Qed.

Lemma drop_app (p r : string) : drop (String.length p) (p ++ r) = r.
Proof. induction p as [|c p IH]; [reflexivity|exact IH]. Qed.

(** Replacing a phrase the string begins with removes it. *)
Lemma replace_prefix (p r : string) : replace p "" (p ++ r) = r.
Proof. rewrite replace_unfold, prefix_app. cbn [append]. apply drop_app. Qed.

(** Replacing a phrase that does not occur changes nothing. *)
Lemma replace_absent (pat rep s : string) :
  includes s pat = false -> replace pat rep s = s.
Proof.
  induction s as [|c s IH]; cbn [includes]; intros H;
    apply orb_false_iff in H as [Hp Hs]; rewrite replace_unfold, Hp;
    [reflexivity|]. now rewrite (IH Hs).
Qed.

Lemma includes_app_intro (a k b : string) : includes (a ++ k ++ b) k = true.
Proof.
  induction a as [|c a IH].
  - cbn [append]. destruct (k ++ b) eqn:E; cbn [includes];
      rewrite <- E, prefix_app; reflexivity.
  - cbn [append includes]. rewrite IH. apply orb_true_r.
Qed.

Lemma term_branch_inversion (m : string) (net : network) (log log' : list string)
      (r : BotResponse) :
  getBotResponse_traced m net log = (Returned (TermBranch, r), log') ->
  find (fun kv => includes (toLowerCase m) (fst kv)) predefinedResponses = None /\
  r = plain ("I'll explain " ++
             trim (replace "explain" "" (replace "what is" "" (toLowerCase m))) ++
             ". " ++
             value_to_string
               match truthy_lookup
                       (trim (replace "explain" ""
                                (replace "what is" "" (toLowerCase m)))) with
               | Some v => v
               | None => VString default_text
               end).
Proof.
  destruct (stock_command m) eqn:Hs.
  - destruct (stock_cases m net log Hs) as [q [h [_ [_ E]]]]. rewrite E.
    destruct (truthy_error q); [discriminate|].
    destruct (formatStockResponse (data q) (symbol_of m)); [|discriminate].
    destruct (truthy_error h); discriminate.
  - unfold getBotResponse_traced. cbv zeta.
    change (String.eqb (command (parseCommand m)) "stock"
            && truthy (args (parseCommand m)))%bool with (stock_command m).
    rewrite Hs.
    destruct (truthy_lookup (toLowerCase m)); [discriminate|].
    destruct (find (fun kv => includes (toLowerCase m) (fst kv))
                   predefinedResponses) as [[k a]|]; [discriminate|].
    match goal with
    | |- context [if ?c then _ else _] => destruct c
    end; [|discriminate].
    intros [= <-]. split; reflexivity.
Qed.

Lemma term_not_in_table (lm left right term : string) :
  find (fun kv => includes lm (fst kv)) predefinedResponses = None ->
  lm = left ++ term ++ right ->
  (term = "constructor" \/ term = "__proto__" -> False) ->
  toLowerCase term = term ->
  truthy_lookup term = None.
Proof.
  intros F E Hm Hl.
  destruct (truthy_lookup term) as [v|] eqn:L; [exfalso|reflexivity].
  apply lookup_truthy in L. apply in_app_or in L as [K|M].
  - apply in_map_iff in K as [[k a] [Ek Hin]]. cbn in Ek. subst k.
    pose proof (List.find_none _ _ F (term, a) Hin) as N. cbn [fst] in N.
    rewrite E, includes_app_intro in N. discriminate.
  - apply Hm. now apply lowercase_members.
Qed.

(** X16. In the definition branch the table is looked up in vain when the
    message is a plain question, "what is ..." without the word
    "explain" in it, or "explain ..." without "what is" in it: the term
    is part of the message, so a term that is a trigger would have been
    found by the scan before.  Such a question is answered with the term
    and the default text (the two inherited names apart). *)
Theorem plain_question_gets_default
        (m rest : string) (net : network) (log log' : list string)
        (r : BotResponse) :
  getBotResponse_traced m net log = (Returned (TermBranch, r), log') ->
  (toLowerCase m = "what is" ++ rest /\ includes rest "explain" = false) \/
  (toLowerCase m = "explain" ++ rest /\
   includes (toLowerCase m) "what is" = false) ->
  trim rest <> "constructor" -> trim rest <> "__proto__" ->
  r = plain ("I'll explain " ++ trim rest ++ ". " ++ default_text).
Proof.
  intros H Hm H1 H2.
  apply term_branch_inversion in H as [F ->].
  assert (Hterm : trim (replace "explain" ""
                          (replace "what is" "" (toLowerCase m))) = trim rest).
  { destruct Hm as [[E A]|[E A]].
    - rewrite E, (replace_prefix "what is" rest).
      now rewrite (replace_absent "explain" "" rest A).
    - rewrite (replace_absent "what is" "" (toLowerCase m) A).
      now rewrite E, (replace_prefix "explain" rest). }
  rewrite Hterm.
  assert (Hrest : exists p, toLowerCase m = p ++ rest /\ toLowerCase rest = rest).
  { pose proof (toLowerCase_idempotent m) as I.
    destruct Hm as [[E _]|[E _]]; rewrite E in I; cbn in I;
      injection I as I; eexists; split; eassumption. }
  destruct Hrest as [p [E Hl]].
  destruct (trim_decompose rest) as [w1 [w2 [_ [_ D]]]].
  rewrite (term_not_in_table (toLowerCase m) (p ++ w1) w2 (trim rest) F).
  - reflexivity.
  - rewrite E, D at 1. now rewrite append_assoc.
  - tauto.
  - now rewrite <- trim_toLowerCase, Hl.
Qed.

Lemma plain_question_gets_default_witness :
  plain ("I'll explain " ++ "a dividend" ++ ". " ++ default_text) =
  plain ("I'll explain " ++ trim " a dividend" ++ ". " ++ default_text).
Proof.
  apply (plain_question_gets_default
           "What is a dividend" " a dividend" offline [] []).
  - vm_compute. reflexivity.
  - left. split; vm_compute; reflexivity.
  - vm_compute. discriminate.
  - vm_compute. discriminate.
Defined.

(** The lookup of the definition branch does find a trigger when removing
    the other phrase puts the trigger together. *)
Lemma spliced_term_finds_trigger :
  fst (getBotResponse_traced "explain hewhat isllo" offline []) =
  Returned (TermBranch, plain ("I'll explain hello. " ++ hello_text)).
Proof. vm_compute. reflexivity. Qed.

(** ** Submissions *)

Lemma trimStart_all_white (s : string) : all_white s = true -> trimStart s = "".
Proof.
  induction s as [|c s IH]; [reflexivity|].
  cbn. intros H. apply andb_true_iff in H as [Hc Hs]. now rewrite Hc, IH.
Qed.

(** X17. A submission is dropped when the field holds nothing but white
    space, and when a submission is still running: the state stays as it
    is and nothing is requested. *)
Theorem blank_submission_ignored (st : AppState) (net : network)
        (log : list string) :
  all_white (input st) = true \/ isLoading st = true ->
  handleSubmit st net log = (st, log).
Proof.
  intros [H|H]; apply handleSubmit_ignored; [left|now right].
  unfold trim. now rewrite trimStart_all_white.
Qed.

Lemma blank_submission_ignored_witness :
  handleSubmit (setInput "   " initial_state) offline [] =
  (setInput "   " initial_state, []).
Proof.
  apply blank_submission_ignored. left. reflexivity.
Defined.

(** X18. What the user types reaches [getBotResponse] trimmed, so in the
    application a trigger typed with white space around it, in any letter
    case, is found by the exact lookup: the conversation grows by the
    trimmed message and that trigger's text, the field is emptied, and
    nothing is requested. *)
Theorem submitted_trigger_exact (st : AppState) (net : network)
        (log : list string) (key answer : string) :
  isLoading st = false ->
  In (key, answer) predefinedResponses ->
  trim (toLowerCase (input st)) = key ->
  getBotResponse_traced (trim (input st)) net log =
    (Returned (ExactBranch, plain answer), log) /\
  handleSubmit st net log =
    ({| messages :=
          (messages st ++
           [{| message_text := VString (trim (input st)); isBot := false;
               message_chartData := None |};
            {| message_text := VString answer; isBot := true;
               message_chartData := None |}])%list;
        input := "";
        isLoading := false |}, log).
Proof.
  intros Hl Hin Ht.
  destruct (trigger_names key answer Hin) as [Hk Hn].
  destruct (name_black key Hn) as [Tk [Hh _]].
  assert (Hlow : toLowerCase (trim (input st)) = key).
  { now rewrite <- trim_toLowerCase. }
  assert (E : getBotResponse_traced (trim (input st)) net log =
              (Returned (ExactBranch, plain answer), log)).
  { apply exact_branch.
    - unfold stock_command, parseCommand. cbn [command args].
      rewrite Hlow, Tk.
      pose proof triggers_not_stock as N. rewrite forallb_forall in N.
      specialize (N key Hk). apply negb_true_iff in N. now rewrite N.
    - rewrite Hlow. now apply truthy_lookup_trigger. }
  split; [exact E|].
  unfold handleSubmit. rewrite Hl, getBotResponse_of_traced, E.
  assert (Hne : truthy (trim (input st)) = true).
  { destruct (trim (input st)); [|reflexivity].
    rewrite <- Hlow in Hh. vm_compute in Hh. discriminate Hh. }
  rewrite Hne. cbn [negb orb snd text chartData plain].
  rewrite <- app_assoc. reflexivity.
Qed.

Lemma submitted_trigger_exact_witness :
  getBotResponse_traced (trim "  HELP ") offline [] =
    (Returned (ExactBranch, plain help_text), []) /\
  handleSubmit (setInput "  HELP " initial_state) offline [] =
    ({| messages :=
          (messages (setInput "  HELP " initial_state) ++
           [{| message_text := VString (trim "  HELP "); isBot := false;
               message_chartData := None |};
            {| message_text := VString help_text; isBot := true;
               message_chartData := None |}])%list;
        input := "";
        isLoading := false |}, []).
Proof.
  apply (submitted_trigger_exact
           (setInput "  HELP " initial_state) offline [] "help" help_text).
  - reflexivity.
  - cbn. tauto.
  - vm_compute. reflexivity.
Defined.

Lemma speakers_alternate_app (b : bool) (l l' : list Message) :
  speakers_alternate b (l ++ l') =
  speakers_alternate b l &&
  speakers_alternate (if Nat.even (List.length l) then b else negb b) l'.
Proof.
  revert b. induction l as [|x l IH]; intros b; cbn [app speakers_alternate].
  - reflexivity.
  - rewrite IH. cbn [List.length]. rewrite Nat.even_succ, <- Nat.negb_even.
    destruct (Nat.even (List.length l)); cbn [negb];
      rewrite ?negb_involutive, ?andb_assoc; reflexivity.
Qed.

Lemma handleSubmit_turn (st : AppState) (net : network) (log : list string) :
  isLoading st = false ->
  speakers_alternate true (messages st) = true ->
  Nat.odd (List.length (messages st)) = true ->
  let st' := fst (handleSubmit st net log) in
  isLoading st' = false /\
  speakers_alternate true (messages st') = true /\
  Nat.odd (List.length (messages st')) = true /\
  List.length (messages st') =
    (List.length (messages st) + if truthy (trim (input st)) then 2 else 0)%nat /\
  firstn (List.length (messages st)) (messages st') = messages st.
Proof.
  intros Hl Ha Ho. cbv zeta.
  destruct (truthy (trim (input st))) eqn:T.
  - destruct (handleSubmit_answers st net log T Hl) as [bot [Hm [Hb [Hl' _]]]].
    rewrite Hm, Hl'. repeat split.
    + rewrite speakers_alternate_app, Ha.
      rewrite <- Nat.negb_odd, Ho. cbn. rewrite Hb. reflexivity.
    + rewrite length_app. cbn [List.length].
      replace (List.length (messages st) + 2)%nat
        with (S (S (List.length (messages st)))) by lia.
      exact Ho.
    + rewrite length_app. reflexivity.
    + rewrite firstn_app, Nat.sub_diag, firstn_all. cbn. apply app_nil_r.
  - rewrite (handleSubmit_ignored st net log) by now left.
    cbn [fst]. repeat split; try assumption; [lia|apply firstn_all].
Qed.

Lemma session_invariant (net : network) (typed : list string)
      (st : AppState) (log : list string) :
  isLoading st = false ->
  speakers_alternate true (messages st) = true ->
  Nat.odd (List.length (messages st)) = true ->
  let st' := fst (session net typed st log) in
  isLoading st' = false /\
  speakers_alternate true (messages st') = true /\
  List.length (messages st') =
    (List.length (messages st) +
     2 * List.length (filter (fun t => truthy (trim t)) typed))%nat /\
  firstn (List.length (messages st)) (messages st') = messages st.
Proof.
  revert st log. induction typed as [|t typed IH]; intros st log Hl Ha Ho.
  - cbn. repeat split; try assumption; [lia|apply firstn_all].
  - cbn [session filter].
    pose proof (handleSubmit_turn (setInput t st) net log Hl Ha Ho) as H.
    cbv zeta in H. cbn [input messages setInput] in H.
    destruct (handleSubmit (setInput t st) net log) as [st1 log1].
    cbn [fst] in H. destruct H as [Hl1 [Ha1 [Ho1 [Hn1 Hf1]]]].
    specialize (IH st1 log1 Hl1 Ha1 Ho1). cbv zeta in IH.
    destruct IH as [Hl2 [Ha2 [Hn2 Hf2]]].
    repeat split; try assumption.
    + rewrite Hn2, Hn1. destruct (truthy (trim t)); cbn [List.length]; lia.
    + rewrite <- Hf2 in Hf1. rewrite firstn_firstn in Hf1.
      rewrite Nat.min_l in Hf1 by (rewrite Hn1; lia). exact Hf1.
Qed.

(** X19. The conversation only grows, and in turns.  After any sequence of
    submissions from the initial state, the greeting still stands first,
    the messages alternate between the bot and the user (whose messages
    carry no chart), every submission that was not blank has added its
    two messages, and no submission is left running. *)
Theorem conversation_grows_in_turns (net : network) (typed : list string) :
  let st := fst (session net typed initial_state []) in
  isLoading st = false /\
  speakers_alternate true (messages st) = true /\
  List.length (messages st) =
    (1 + 2 * List.length (filter (fun t => truthy (trim t)) typed))%nat /\
  firstn 1 (messages st) = messages initial_state.
Proof.
  apply (session_invariant net typed initial_state []); reflexivity.
Qed.

Lemma handleSubmit_log (st : AppState) (net : network) (log : list string) :
  isLoading st = false ->
  isLoading (fst (handleSubmit st net log)) = false /\
  snd (handleSubmit st net log) =
    if stock_command (trim (input st))
    then (log ++ [quote_url (symbol_of (trim (input st)));
                  history_url (symbol_of (trim (input st)))])%list
    else log.
Proof.
  intros Hl. unfold handleSubmit. rewrite Hl.
  destruct (truthy (trim (input st))) eqn:T; cbn [negb orb].
  - pose proof (response_log (trim (input st)) net log) as R.
    destruct (getBotResponse (trim (input st)) net log) as [[r|] log'];
      cbn [snd] in R; now split.
  - destruct (trim (input st)); [|discriminate T]. now split.
Qed.

(** X20. The requests of a whole conversation are those of its stock
    commands, in the order they were typed: every submission whose
    trimmed text is a stock command adds its quote and its history
    request, and no other submission adds any. *)
Theorem conversation_requests (net : network) (typed : list string)
        (log : list string) :
  snd (session net typed initial_state log) =
  (log ++
   flat_map (fun t =>
               if stock_command (trim t)
               then [quote_url (symbol_of (trim t));
                     history_url (symbol_of (trim t))]
               else []) typed)%list.
Proof.
  assert (G : forall st, isLoading st = false ->
              snd (session net typed st log) =
              (log ++
               flat_map (fun t =>
                           if stock_command (trim t)
                           then [quote_url (symbol_of (trim t));
                                 history_url (symbol_of (trim t))]
                           else []) typed)%list).
  { revert log. induction typed as [|t typed IH]; intros log st Hl.
    - cbn. now rewrite app_nil_r.
    - cbn [session flat_map].
      destruct (handleSubmit_log (setInput t st) net log Hl) as [Hl' Hs].
      cbn [input setInput] in Hs.
      destruct (handleSubmit (setInput t st) net log) as [st1 log1].
      cbn [fst snd] in Hl', Hs. rewrite (IH log1 st1 Hl'), Hs.
      destruct (stock_command (trim t)); [|reflexivity].
      now rewrite <- app_assoc. }
  now apply G.
Qed.
